(** * json_untruncate: a shallow embedding of [untruncate_json]

    The Python function [untruncate_json] scans a text once, keeping a stack
    of syntactic contexts and one optional rollback point, and then appends
    the closing text of every context still open.  The embedding follows
    [json_untruncate.py] line by line: the closures [push], [replace], [pop],
    [set_respawn], [clear_respawn], [dont_consume_character] and [start_any]
    become functions on an explicit [State]; operations that can raise in
    Python (indexing, [pop] on an empty list) return [option].

    A text is a [string] and a character an [ascii]: the program compares
    characters with ASCII characters only.  Positions and lengths are in
    [Z], as Python's integers, with the clamping of indices and slice
    bounds written out. *)

From Stdlib Require Import String Ascii List ZArith Lia Bool.
Import ListNotations.

Local Open Scope Z_scope.

(** ** Python strings and lists *)

Module Py.

Definition len (s : string) : Z := Z.of_nat (String.length s).

(** [s[i]]: a negative index counts from the end, an index out of range
    raises IndexError (here [None]). *)
Definition index (s : string) (i : Z) : option ascii :=
  let j := if i <? 0 then i + len s else i in
  if (0 <=? j) && (j <? len s) then String.get (Z.to_nat j) s else None.

(** How a slice bound is clamped into [0 .. n]. *)
Definition adjust (n i : Z) : Z :=
  if i <? 0 then Z.max 0 (i + n) else Z.min i n.

(** [s[start:stop]] *)
Definition slice (s : string) (start stop : Z) : string :=
  let a := adjust (len s) start in
  let b := adjust (len s) stop in
  substring (Z.to_nat a) (Z.to_nat (b - a)) s.

(** [s[:stop]] and [s[start:]] *)
Definition slice_to (s : string) (stop : Z) : string := slice s 0 stop.
Definition slice_from (s : string) (start : Z) : string := slice s start (len s).

(** The highest index below [k] that holds [c], or -1. *)
Fixpoint rfind_below (s : string) (c : ascii) (k : nat) : Z :=
  match k with
  | O => -1
  | S k' =>
      match String.get k' s with
      | Some d => if Ascii.eqb d c then Z.of_nat k' else rfind_below s c k'
      | None => rfind_below s c k'
      end
  end.

(** [s.rfind(c, 0, stop)] and [s.rfind(c)] for a one-character [c]. *)
Definition rfind_to (s : string) (c : ascii) (stop : Z) : Z :=
  rfind_below s c (Z.to_nat (adjust (len s) stop)).
Definition rfind (s : string) (c : ascii) : Z :=
  rfind_below s c (String.length s).

(** [l[-1]] and [l.pop()] on a list: both raise on the empty list. *)
Definition last {A} (l : list A) : option A :=
  match l with
  | [] => None
  | x :: l' => Some (List.last l' x)
  end.

Definition pop {A} (l : list A) : option (list A) :=
  match l with
  | [] => None
  | _ :: _ => Some (removelast l)
  end.

(** Order of code points, as Python compares one-character strings. *)
Definition char_le (a b : ascii) : bool := (N_of_ascii a <=? N_of_ascii b)%N.
Definition char_between (lo c hi : ascii) : bool := char_le lo c && char_le c hi.

End Py.

(** The error monad of the embedding: [None] is a raised exception. *)
Notation "x <- e ;; k" := (match e with Some x => k | None => None end)
  (at level 61, e at next level, right associativity).

(** ** Data model *)

Inductive ContextType : Type :=
  | TOP_LEVEL
  | STRING
  | STRING_ESCAPED
  | STRING_UNICODE
  | NUMBER
  | NUMBER_NEEDS_DIGIT
  | NUMBER_NEEDS_EXPONENT
  | TRUE
  | FALSE
  | NULL
  | ARRAY_NEEDS_VALUE
  | ARRAY_NEEDS_COMMA
  | OBJECT_NEEDS_KEY
  | OBJECT_NEEDS_COLON
  | OBJECT_NEEDS_VALUE
  | OBJECT_NEEDS_COMMA.

Inductive RespawnReason : Type :=
  | STRING_ESCAPE
  | COLLECTION_ITEM.

Definition reason_eqb (a b : RespawnReason) : bool :=
  match a, b with
  | STRING_ESCAPE, STRING_ESCAPE => true
  | COLLECTION_ITEM, COLLECTION_ITEM => true
  | _, _ => false
  end.

(** The double quote, the backslash and the four white space characters. *)
Definition DQ : ascii := "034"%char.
Definition BACKSLASH : ascii := "092"%char.

Definition is_whitespace (char : ascii) : bool :=
  Ascii.eqb char "032" || Ascii.eqb char "013" || Ascii.eqb char "010"
  || Ascii.eqb char "009".

(** The variables the closures of [untruncate_json] share.  The stack is kept
    in Python's order: bottom first, top last. *)
Record State : Type := mkState {
  context_stack : list ContextType;
  position : Z;
  respawn_position : option Z;
  respawn_stack_length : option Z;
  respawn_reason : option RespawnReason
}.

Definition initial_state : State :=
  mkState [TOP_LEVEL] 0 None None None.

Definition with_stack (l : list ContextType) (st : State) : State :=
  mkState l (position st) (respawn_position st) (respawn_stack_length st)
    (respawn_reason st).

Definition with_position (p : Z) (st : State) : State :=
  mkState (context_stack st) p (respawn_position st) (respawn_stack_length st)
    (respawn_reason st).

(** ** The closures *)

Definition push (context : ContextType) (st : State) : State :=
  with_stack (context_stack st ++ [context]) st.

Definition replace (context : ContextType) (st : State) : option State :=
  l <- Py.pop (context_stack st) ;;
  Some (with_stack (l ++ [context]) st).

Definition set_respawn (reason : RespawnReason) (st : State) : State :=
  match respawn_position st with
  | None =>
      mkState (context_stack st) (position st) (Some (position st))
        (Some (Z.of_nat (length (context_stack st)))) (Some reason)
  | Some _ => st
  end.

Definition clear_respawn (reason : RespawnReason) (st : State) : State :=
  match respawn_reason st with
  | Some pending =>
      if reason_eqb reason pending
      then mkState (context_stack st) (position st) None None None
      else st
  | None => st
  end.

Definition pop (st : State) : option State :=
  l <- Py.pop (context_stack st) ;;
  Some (with_stack l st).

Definition dont_consume_character (st : State) : State :=
  with_position (position st - 1) st.

Definition start_any (char : ascii) (st : State) : State :=
  if Py.char_between "0" char "9" then push NUMBER st
  else if Ascii.eqb char DQ then push STRING st
  else if Ascii.eqb char "-" then push NUMBER_NEEDS_DIGIT st
  else if Ascii.eqb char "t" then push TRUE st
  else if Ascii.eqb char "f" then push FALSE st
  else if Ascii.eqb char "n" then push NULL st
  else if Ascii.eqb char "[" then push ARRAY_NEEDS_VALUE st
  else if Ascii.eqb char "{" then push OBJECT_NEEDS_KEY st
  else st.

(** ** The scanning loop *)

(** One iteration of [for position in range(len(json))]: the loop variable is
    the closures' [position], so the iteration starts by storing the next
    element of the range in it. *)
Definition loop_body (json : string) (i : nat) (st0 : State) : option State :=
  let st := with_position (Z.of_nat i) st0 in
  char <- Py.index json (position st) ;;
  current_context <- Py.last (context_stack st) ;;
  match current_context with
  | TOP_LEVEL => Some (start_any char st)
  | STRING =>
      if Ascii.eqb char DQ then pop st
      else if Ascii.eqb char BACKSLASH
      then Some (push STRING_ESCAPED (set_respawn STRING_ESCAPE st))
      else Some st
  | STRING_ESCAPED =>
      if Ascii.eqb char "u" then Some (push STRING_UNICODE st)
      else pop (clear_respawn STRING_ESCAPE st)
  | STRING_UNICODE =>
      if position st - Py.rfind_to json "u" (position st) =? 4
      then pop (clear_respawn STRING_ESCAPE st)
      else Some st
  | NUMBER =>
      if Ascii.eqb char "." then replace NUMBER_NEEDS_DIGIT st
      else if Ascii.eqb char "e" || Ascii.eqb char "E"
      then replace NUMBER_NEEDS_EXPONENT st
      else if negb (Py.char_between "0" char "9")
      then pop (dont_consume_character st)
      else Some st
  | NUMBER_NEEDS_DIGIT => replace NUMBER st
  | NUMBER_NEEDS_EXPONENT =>
      if Ascii.eqb char "+" || Ascii.eqb char "-"
      then replace NUMBER_NEEDS_DIGIT st
      else replace NUMBER st
  | TRUE | FALSE | NULL =>
      if negb (Py.char_between "a" char "z")
      then pop (dont_consume_character st)
      else Some st
  | ARRAY_NEEDS_VALUE =>
      if Ascii.eqb char "]" then pop st
      else if negb (is_whitespace char)
      then st1 <- replace ARRAY_NEEDS_COMMA (clear_respawn COLLECTION_ITEM st) ;;
           Some (start_any char st1)
      else Some st
  | ARRAY_NEEDS_COMMA =>
      if Ascii.eqb char "]" then pop st
      else if Ascii.eqb char ","
      then replace ARRAY_NEEDS_VALUE (set_respawn COLLECTION_ITEM st)
      else Some st
  | OBJECT_NEEDS_KEY =>
      if Ascii.eqb char "}" then pop st
      else if Ascii.eqb char DQ
      then st1 <- replace OBJECT_NEEDS_COLON (set_respawn COLLECTION_ITEM st) ;;
           Some (push STRING st1)
      else Some st
  | OBJECT_NEEDS_COLON =>
      if Ascii.eqb char ":" then replace OBJECT_NEEDS_VALUE st else Some st
  | OBJECT_NEEDS_VALUE =>
      if negb (is_whitespace char)
      then st1 <- replace OBJECT_NEEDS_COMMA (clear_respawn COLLECTION_ITEM st) ;;
           Some (start_any char st1)
      else Some st
  | OBJECT_NEEDS_COMMA =>
      if Ascii.eqb char "}" then pop st
      else if Ascii.eqb char ","
      then replace OBJECT_NEEDS_KEY (set_respawn COLLECTION_ITEM st)
      else Some st
  end.

(** [for i in l: body], stopping at the first exception. *)
Fixpoint for_each (body : nat -> State -> option State) (l : list nat)
    (st : State) : option State :=
  match l with
  | [] => Some st
  | i :: l' => st' <- body i st ;; for_each body l' st'
  end.

(** The state after the first [k] iterations of the loop, and after all. *)
Definition scan_upto (json : string) (k : nat) : option State :=
  for_each (loop_body json) (seq 0 k) initial_state.

Definition scan (json : string) : option State :=
  scan_upto json (String.length json).

(** ** The completion synthesizer *)

Definition finish_word (json word : string) (result : list string)
    : option (list string) :=
  w0 <- Py.index word 0 ;;
  Some (result ++ [Py.slice_from word (Py.len word - Py.rfind json w0)]).

Definition close_context (json : string) (context : ContextType)
    (result : list string) : option (list string) :=
  match context with
  | STRING => Some (result ++ [String DQ EmptyString])
  | NUMBER_NEEDS_DIGIT | NUMBER_NEEDS_EXPONENT => Some (result ++ ["0"%string])
  | TRUE => finish_word json "true" result
  | FALSE => finish_word json "false" result
  | NULL => finish_word json "null" result
  | ARRAY_NEEDS_VALUE | ARRAY_NEEDS_COMMA => Some (result ++ ["]"%string])
  | OBJECT_NEEDS_KEY | OBJECT_NEEDS_COLON | OBJECT_NEEDS_VALUE
  | OBJECT_NEEDS_COMMA => Some (result ++ ["}"%string])
  | TOP_LEVEL | STRING_ESCAPED | STRING_UNICODE | NUMBER => Some result
  end.

(** [for context in reversed(context_stack)] *)
Fixpoint close_all (json : string) (contexts : list ContextType)
    (result : list string) : option (list string) :=
  match contexts with
  | [] => Some result
  | context :: rest =>
      result' <- close_context json context result ;;
      close_all json rest result'
  end.

(** [context_stack[:respawn_stack_length]] and [json[:respawn_position]] *)
Definition kept_stack (st : State) : list ContextType :=
  match respawn_stack_length st with
  | Some n => firstn (Z.to_nat (Py.adjust (Z.of_nat (length (context_stack st))) n))
                (context_stack st)
  | None => context_stack st
  end.

Definition kept_text (json : string) (st : State) : string :=
  match respawn_position st with
  | Some p => Py.slice_to json p
  | None => json
  end.

Definition complete (json : string) (st : State) : option string :=
  result <- close_all json (rev (kept_stack st)) [kept_text json st] ;;
  Some (String.concat EmptyString result).

Definition untruncate_json (json : string) : option string :=
  st <- scan json ;;
  complete json st.

(** Text with double quotes is written with [q] for the quote. *)
Definition q : string := String DQ EmptyString.

(** ** What parseable as JSON means

    A recognizer of JSON texts (RFC 8259) as a pushdown automaton that reads
    one character at a time.  A frame is pushed for a value being read and
    popped when the value ends; before a value starts, the frame below is
    set to what it expects after the value.  With [full = false] numbers,
    the literals and unicode escapes are refused: what is left is the texts
    built from strings, arrays and objects. *)

Module Json.

Inductive Frame : Type :=
  | FValue                     (* top level, before the value *)
  | FDone                      (* top level, after the value *)
  | FString
  | FEscape                    (* after a backslash *)
  | FHex (n : nat)             (* unicode escape, [n + 1] hex digits to come *)
  | FMinus                     (* after a leading minus *)
  | FZero                      (* after a leading zero *)
  | FInt
  | FDot                       (* after the decimal point *)
  | FFrac
  | FExp                       (* after e or E *)
  | FExpSign
  | FExpDigits
  | FLiteral (rest : string)   (* the letters of the literal still to come *)
  | FArrayFirst                (* after the opening bracket *)
  | FArrayValue                (* after a comma *)
  | FArrayComma                (* after an item *)
  | FObjectFirst               (* after the opening brace *)
  | FObjectKey                 (* after a comma *)
  | FObjectColon               (* after a key *)
  | FObjectValue               (* after the colon *)
  | FObjectComma.              (* after a member *)

Definition ws (c : ascii) : bool :=
  Ascii.eqb c "032" || Ascii.eqb c "009" || Ascii.eqb c "010"
  || Ascii.eqb c "013".

Definition digit (c : ascii) : bool := Py.char_between "0" c "9".
Definition digit19 (c : ascii) : bool := Py.char_between "1" c "9".
Definition hex (c : ascii) : bool :=
  digit c || Py.char_between "a" c "f" || Py.char_between "A" c "F".
Definition control (c : ascii) : bool := (N_of_ascii c <? 32)%N.
Definition simple_escape (c : ascii) : bool :=
  Ascii.eqb c DQ || Ascii.eqb c BACKSLASH || Ascii.eqb c "/"
  || Ascii.eqb c "b" || Ascii.eqb c "f" || Ascii.eqb c "n"
  || Ascii.eqb c "r" || Ascii.eqb c "t".

(** A value starts with [c] above the frames [s]. *)
Definition start_value (full : bool) (c : ascii) (s : list Frame)
    : option (list Frame) :=
  if Ascii.eqb c DQ then Some (FString :: s)
  else if Ascii.eqb c "[" then Some (FArrayFirst :: s)
  else if Ascii.eqb c "{" then Some (FObjectFirst :: s)
  else if negb full then None
  else if Ascii.eqb c "-" then Some (FMinus :: s)
  else if Ascii.eqb c "0" then Some (FZero :: s)
  else if digit19 c then Some (FInt :: s)
  else if Ascii.eqb c "t" then Some (FLiteral "rue" :: s)
  else if Ascii.eqb c "f" then Some (FLiteral "alse" :: s)
  else if Ascii.eqb c "n" then Some (FLiteral "ull" :: s)
  else None.

(** [c] arrives after a complete value. *)
Definition after_value (c : ascii) (s : list Frame) : option (list Frame) :=
  match s with
  | FDone :: _ => if ws c then Some s else None
  | FArrayComma :: s' =>
      if ws c then Some s
      else if Ascii.eqb c "," then Some (FArrayValue :: s')
      else if Ascii.eqb c "]" then Some s'
      else None
  | FObjectComma :: s' =>
      if ws c then Some s
      else if Ascii.eqb c "," then Some (FObjectKey :: s')
      else if Ascii.eqb c "}" then Some s'
      else None
  | _ => None
  end.

Definition step (full : bool) (s : list Frame) (c : ascii)
    : option (list Frame) :=
  match s with
  | [] => None
  | FValue :: s' =>
      if ws c then Some s else start_value full c (FDone :: s')
  | FDone :: _ | FArrayComma :: _ | FObjectComma :: _ => after_value c s
  | FString :: s' =>
      if Ascii.eqb c DQ then Some s'
      else if Ascii.eqb c BACKSLASH then Some (FEscape :: s)
      else if control c then None
      else Some s
  | FEscape :: s' =>
      if simple_escape c then Some s'
      else if Ascii.eqb c "u" && full then Some (FHex 3 :: s')
      else None
  | FHex n :: s' =>
      if hex c
      then match n with
           | O => Some s'
           | S m => Some (FHex m :: s')
           end
      else None
  | FMinus :: s' =>
      if Ascii.eqb c "0" then Some (FZero :: s')
      else if digit19 c then Some (FInt :: s')
      else None
  | FZero :: s' =>
      if Ascii.eqb c "." then Some (FDot :: s')
      else if Ascii.eqb c "e" || Ascii.eqb c "E" then Some (FExp :: s')
      else after_value c s'
  | FInt :: s' =>
      if digit c then Some s
      else if Ascii.eqb c "." then Some (FDot :: s')
      else if Ascii.eqb c "e" || Ascii.eqb c "E" then Some (FExp :: s')
      else after_value c s'
  | FDot :: s' => if digit c then Some (FFrac :: s') else None
  | FFrac :: s' =>
      if digit c then Some s
      else if Ascii.eqb c "e" || Ascii.eqb c "E" then Some (FExp :: s')
      else after_value c s'
  | FExp :: s' =>
      if Ascii.eqb c "+" || Ascii.eqb c "-" then Some (FExpSign :: s')
      else if digit c then Some (FExpDigits :: s')
      else None
  | FExpSign :: s' => if digit c then Some (FExpDigits :: s') else None
  | FExpDigits :: s' => if digit c then Some s else after_value c s'
  | FLiteral rest :: s' =>
      match rest with
      | String x EmptyString => if Ascii.eqb c x then Some s' else None
      | String x rest' =>
          if Ascii.eqb c x then Some (FLiteral rest' :: s') else None
      | EmptyString => None
      end
  | FArrayFirst :: s' =>
      if ws c then Some s
      else if Ascii.eqb c "]" then Some s'
      else start_value full c (FArrayComma :: s')
  | FArrayValue :: s' =>
      if ws c then Some s else start_value full c (FArrayComma :: s')
  | FObjectFirst :: s' =>
      if ws c then Some s
      else if Ascii.eqb c "}" then Some s'
      else if Ascii.eqb c DQ then Some (FString :: FObjectColon :: s')
      else None
  | FObjectKey :: s' =>
      if ws c then Some s
      else if Ascii.eqb c DQ then Some (FString :: FObjectColon :: s')
      else None
  | FObjectColon :: s' =>
      if ws c then Some s
      else if Ascii.eqb c ":" then Some (FObjectValue :: s')
      else None
  | FObjectValue :: s' =>
      if ws c then Some s else start_value full c (FObjectComma :: s')
  end.

Fixpoint run (full : bool) (s : list Frame) (text : string)
    : option (list Frame) :=
  match text with
  | EmptyString => Some s
  | String c text' => s' <- step full s c ;; run full s' text'
  end.

(** At the end of the text the value is complete: nothing is open, or only
    a number that may end where it stands. *)
Definition accepting (s : list Frame) : bool :=
  match s with
  | [FDone] => true
  | [FZero; FDone] | [FInt; FDone] | [FFrac; FDone] | [FExpDigits; FDone] => true
  | _ => false
  end.

Definition accepts (full : bool) (text : string) : bool :=
  match run full [FValue] text with
  | Some s => accepting s
  | None => false
  end.

Definition is_json (text : string) : bool := accepts true text.

(** Texts of strings without unicode escapes, arrays and objects only. *)
Definition is_structural_json (text : string) : bool := accepts false text.

End Json.

Fixpoint all_whitespace (s : string) : bool :=
  match s with
  | EmptyString => true
  | String c s' => is_whitespace c && all_whitespace s'
  end.

Local Open Scope string_scope.

(** ** The invariant of the scanning loop

    The stack always has [TOP_LEVEL] at the bottom and nowhere else, so it is
    never empty and the closures never pop its last element; the three
    respawn variables are set and cleared together. *)

Definition stack_ok (l : list ContextType) : Prop :=
  exists rest, l = TOP_LEVEL :: rest /\ ~ In TOP_LEVEL rest.

Definition checkpoint_coherent (st : State) : Prop :=
  (respawn_position st = None /\ respawn_stack_length st = None
   /\ respawn_reason st = None)
  \/ (exists p n r, respawn_position st = Some p
        /\ respawn_stack_length st = Some n /\ respawn_reason st = Some r).

Definition scan_inv (st : State) : Prop :=
  stack_ok (context_stack st) /\ checkpoint_coherent st.

(** The texts the synthesizer can append for one context. *)
Definition literal_tail (f : string) : Prop :=
  exists word pre,
    (word = "true"%string \/ word = "false"%string \/ word = "null"%string) /\ word = (pre ++ f)%string.

Definition is_closing_fragment (f : string) : Prop :=
  f = q \/ f = "0"%string \/ f = "]"%string \/ f = "}"%string \/ literal_tail f.


(** ** The scanner against the recognizer

    On a text of strings, arrays and objects the context stack of the scanner
    follows the frames of the recognizer. *)

Import Json.

Definition context_of (f : Frame) : ContextType :=
  match f with
  | FValue | FDone => TOP_LEVEL
  | FString => STRING
  | FEscape => STRING_ESCAPED
  | FHex _ => STRING_UNICODE
  | FZero | FInt | FFrac | FExpDigits => NUMBER
  | FMinus | FDot | FExpSign => NUMBER_NEEDS_DIGIT
  | FExp => NUMBER_NEEDS_EXPONENT
  | FLiteral _ => TRUE
  | FArrayFirst | FArrayValue => ARRAY_NEEDS_VALUE
  | FArrayComma => ARRAY_NEEDS_COMMA
  | FObjectFirst | FObjectKey => OBJECT_NEEDS_KEY
  | FObjectColon => OBJECT_NEEDS_COLON
  | FObjectValue => OBJECT_NEEDS_VALUE
  | FObjectComma => OBJECT_NEEDS_COMMA
  end.

(** The frames below a value being read: each collection waits for a comma
    or its end, the top level is done. *)
Inductive base : list Frame -> Prop :=
  | base_done : base [FDone]
  | base_array B : base B -> base (FArrayComma :: B)
  | base_object B : base B -> base (FObjectComma :: B).

Definition object_open (f : Frame) : Prop := f = FObjectFirst \/ f = FObjectComma.

(** The frames the recognizer can be in on such a text, each with the
    checkpoint the scanner holds there: its reason and the frames of the
    recognizer at the checkpoint's position. *)
Inductive shape : list Frame -> option (RespawnReason * list Frame) -> Prop :=
  | shape_start : shape [FValue] None
  | shape_base B : base B -> shape B None
  | shape_string B : base B -> shape (FString :: B) None
  | shape_array_first B : base B -> shape (FArrayFirst :: B) None
  | shape_object_first B : base B -> shape (FObjectFirst :: B) None
  | shape_escape B :
      base B ->
      shape (FEscape :: FString :: B) (Some (STRING_ESCAPE, FString :: B))
  | shape_array_value B :
      base B ->
      shape (FArrayValue :: B) (Some (COLLECTION_ITEM, FArrayComma :: B))
  | shape_object_key B :
      base B ->
      shape (FObjectKey :: B) (Some (COLLECTION_ITEM, FObjectComma :: B))
  | shape_key B f :
      base B -> object_open f ->
      shape (FString :: FObjectColon :: B) (Some (COLLECTION_ITEM, f :: B))
  | shape_key_escape B f :
      base B -> object_open f ->
      shape (FEscape :: FString :: FObjectColon :: B)
        (Some (COLLECTION_ITEM, f :: B))
  | shape_object_colon B f :
      base B -> object_open f ->
      shape (FObjectColon :: B) (Some (COLLECTION_ITEM, f :: B))
  | shape_object_value B f :
      base B -> object_open f ->
      shape (FObjectValue :: B) (Some (COLLECTION_ITEM, f :: B)).

Definition checkpoint_is (json : string) (st : State)
    (pend : option (RespawnReason * list Frame)) : Prop :=
  match pend with
  | None =>
      respawn_position st = None /\ respawn_stack_length st = None
      /\ respawn_reason st = None
  | Some (r, vk) =>
      exists p, respawn_position st = Some p
        /\ respawn_stack_length st = Some (Z.of_nat (length vk))
        /\ respawn_reason st = Some r
        /\ Json.run false [FValue] (Py.slice_to json p) = Some vk
  end.

Definition sim (json : string) (vs : list Frame) (st : State) : Prop :=
  context_stack st = rev (map context_of vs)
  /\ exists pend, shape vs pend /\ checkpoint_is json st pend.

(** A frame and a context that are closed by the same character. *)
Definition closing_pair (f : Frame) (c : ContextType) : Prop :=
  (f = FString /\ c = STRING)
  \/ ((f = FArrayFirst \/ f = FArrayComma)
      /\ (c = ARRAY_NEEDS_VALUE \/ c = ARRAY_NEEDS_COMMA))
  \/ ((f = FObjectFirst \/ f = FObjectComma)
      /\ (c = OBJECT_NEEDS_KEY \/ c = OBJECT_NEEDS_COLON
          \/ c = OBJECT_NEEDS_VALUE \/ c = OBJECT_NEEDS_COMMA)).

(** ** More about the scan: what stays below the top, and what is ignored *)

(** The contexts that can lie below the top of the stack: every other context
    is replaced before anything is pushed over it. *)
Definition is_inner (c : ContextType) : bool :=
  match c with
  | TOP_LEVEL | STRING | STRING_ESCAPED | ARRAY_NEEDS_COMMA
  | OBJECT_NEEDS_COLON | OBJECT_NEEDS_COMMA => true
  | _ => false
  end.

(** After [k] iterations: only such contexts below the top, at most one
    context pushed per character, and a pending checkpoint that lies in the
    text already read, with a recorded depth of at least two. *)
Definition shape_inv (k : nat) (st : State) : Prop :=
  forallb is_inner (removelast (context_stack st)) = true
  /\ (length (context_stack st) <= k + 1)%nat
  /\ forall p, respawn_position st = Some p ->
       (0 <= p < Z.of_nat k)%Z
       /\ exists n, respawn_stack_length st = Some n /\ (2 <= n <= p + 1)%Z.

(** The characters with which [start_any] starts a value. *)
Definition starts_value (c : ascii) : bool :=
  Py.char_between "0" c "9" || Ascii.eqb c DQ || Ascii.eqb c "-"
  || Ascii.eqb c "t" || Ascii.eqb c "f" || Ascii.eqb c "n"
  || Ascii.eqb c "[" || Ascii.eqb c "{".

(** The characters on which the loop body does nothing in a context.  In
    STRING_UNICODE that depends on the position, not on the character. *)
Definition ignores (context : ContextType) (c : ascii) : bool :=
  match context with
  | TOP_LEVEL => negb (starts_value c)
  | STRING => negb (Ascii.eqb c DQ) && negb (Ascii.eqb c BACKSLASH)
  | NUMBER =>
      negb (Ascii.eqb c ".") && negb (Ascii.eqb c "e")
      && negb (Ascii.eqb c "E") && Py.char_between "0" c "9"
  | TRUE | FALSE | NULL => Py.char_between "a" c "z"
  | ARRAY_NEEDS_VALUE => negb (Ascii.eqb c "]") && is_whitespace c
  | ARRAY_NEEDS_COMMA => negb (Ascii.eqb c "]") && negb (Ascii.eqb c ",")
  | OBJECT_NEEDS_KEY => negb (Ascii.eqb c "}") && negb (Ascii.eqb c DQ)
  | OBJECT_NEEDS_COLON => negb (Ascii.eqb c ":")
  | OBJECT_NEEDS_VALUE => is_whitespace c
  | OBJECT_NEEDS_COMMA => negb (Ascii.eqb c "}") && negb (Ascii.eqb c ",")
  | STRING_ESCAPED | STRING_UNICODE | NUMBER_NEEDS_DIGIT
  | NUMBER_NEEDS_EXPONENT => false
  end.

Fixpoint all_ignored (context : ContextType) (s : string) : bool :=
  match s with
  | EmptyString => true
  | String c s' => ignores context c && all_ignored context s'
  end.

(** The contexts whose closing text is cut out of a word by [finish_word]. *)
Definition is_literal (c : ContextType) : bool :=
  match c with
  | TRUE | FALSE | NULL => true
  | _ => false
  end.

(** The closing text of a context that is not a literal, as [close_context]
    appends it, and the text appended for a stack of such contexts. *)
Definition fixed_closer (c : ContextType) : list string :=
  match c with
  | STRING => [q]
  | NUMBER_NEEDS_DIGIT | NUMBER_NEEDS_EXPONENT => ["0"%string]
  | ARRAY_NEEDS_VALUE | ARRAY_NEEDS_COMMA => ["]"%string]
  | OBJECT_NEEDS_KEY | OBJECT_NEEDS_COLON | OBJECT_NEEDS_VALUE
  | OBJECT_NEEDS_COMMA => ["}"%string]
  | _ => []
  end.

Definition closing_text (stack : list ContextType) : string :=
  String.concat EmptyString (flat_map fixed_closer (rev stack)).

(** A STRING_ESCAPE checkpoint is pending only inside the escape. *)
Definition escape_inv (st : State) : Prop :=
  respawn_reason st = Some STRING_ESCAPE ->
  Py.last (context_stack st) = Some STRING_ESCAPED
  \/ Py.last (context_stack st) = Some STRING_UNICODE.

(** The content of a string: characters other than the quote and the
    backslash, and a backslash with the character after it, which is not u. *)
Fixpoint string_content (s : string) : bool :=
  match s with
  | EmptyString => true
  | String c s' =>
      if Ascii.eqb c DQ then false
      else if Ascii.eqb c BACKSLASH
      then match s' with
           | String d s'' => negb (Ascii.eqb d "u") && string_content s''
           | EmptyString => false
           end
      else string_content s'
  end.

(** ** A number or an escape at the end of the text *)

(** The characters of a number. *)
Definition number_char (c : ascii) : bool :=
  Json.digit c || Ascii.eqb c "-" || Ascii.eqb c "+" || Ascii.eqb c "."
  || Ascii.eqb c "e" || Ascii.eqb c "E".

Fixpoint number_text (s : string) : bool :=
  match s with
  | EmptyString => true
  | String c s' => number_char c && number_text s'
  end.

(** The text has not been refused by the recognizer of strings, arrays and
    objects. *)
Definition structural_prefix (s : string) : bool :=
  match Json.run false [FValue] s with
  | Some _ => true
  | None => false
  end.

(** The frames of a number, and those after which the number may end. *)
Definition is_number_frame (f : Frame) : bool :=
  match f with
  | FMinus | FZero | FInt | FDot | FFrac | FExp | FExpSign | FExpDigits => true
  | _ => false
  end.

Definition is_complete_number (f : Frame) : bool :=
  match f with
  | FZero | FInt | FFrac | FExpDigits => true
  | _ => false
  end.

(** The scanner inside a number that the recognizer reads with the frame
    [nf] over the frames [B]: no checkpoint is pending. *)
Definition num_sim (st : State) (nf : Frame) (B : list Frame) : Prop :=
  is_number_frame nf = true
  /\ base B
  /\ context_stack st = rev (map context_of (nf :: B))
  /\ respawn_position st = None
  /\ respawn_stack_length st = None
  /\ respawn_reason st = None.

(** The text is of strings, arrays and objects and ends inside a string, not
    behind a backslash. *)
Definition ends_in_string (s : string) : bool :=
  match Json.run false [FValue] s with
  | Some (FString :: _) => true
  | _ => false
  end.
(** ** Facts about the Python string operations *)

Lemma get_in_range (s : string) (i : nat) :
  (i < String.length s)%nat -> exists c, String.get i s = Some c.
Proof.
  revert i; induction s as [|a s IH]; simpl; intros i Hi; [lia|].
  destruct i as [|i]; [eauto|]. apply IH; lia.
Qed.

Lemma index_in_range (s : string) (i : nat) :
  (i < String.length s)%nat -> Py.index s (Z.of_nat i) = String.get i s.
Proof.
  intros Hi. unfold Py.index, Py.len.
  replace (Z.of_nat i <? 0)%Z with false by (symmetry; apply Z.ltb_ge; lia).
  replace (0 <=? Z.of_nat i)%Z with true by (symmetry; apply Z.leb_le; lia).
  replace (Z.of_nat i <? Z.of_nat (String.length s))%Z with true
    by (symmetry; apply Z.ltb_lt; lia).
  simpl. now rewrite Nat2Z.id.
Qed.

Lemma adjust_range (n i : Z) : (0 <= n -> 0 <= Py.adjust n i <= n)%Z.
Proof. unfold Py.adjust. destruct (Z.ltb_spec i 0); lia. Qed.

Lemma substring_prefix (s : string) (n : nat) :
  exists rest, s = substring 0 n s ++ rest.
Proof.
  revert n; induction s as [|a s IH]; intros [|n]; simpl;
    try (eexists; reflexivity).
  destruct (IH n) as [rest E]. exists rest. now rewrite <- E.
Qed.

Lemma substring_suffix (s : string) (a : nat) :
  exists pre, s = pre ++ substring a (String.length s - a) s.
Proof.
  revert a; induction s as [|c s IH]; intros a.
  - exists EmptyString. now destruct a.
  - destruct a as [|a].
    + exists EmptyString. simpl. f_equal.
      clear. induction s as [|d s IH]; simpl; [reflexivity|]. now f_equal.
    + destruct (IH a) as [pre E]. exists (String c pre). simpl. now f_equal.
Qed.

Lemma slice_to_prefix (s : string) (p : Z) :
  exists rest, s = Py.slice_to s p ++ rest.
Proof.
  unfold Py.slice_to, Py.slice.
  replace (Py.adjust (Py.len s) 0) with 0%Z by (unfold Py.adjust, Py.len; simpl; lia).
  apply substring_prefix.
Qed.

Lemma slice_from_suffix (s : string) (k : Z) :
  exists pre, s = pre ++ Py.slice_from s k.
Proof.
  unfold Py.slice_from, Py.slice.
  assert (H := adjust_range (Py.len s) k). unfold Py.len in *.
  replace (Py.adjust (Z.of_nat (String.length s)) (Z.of_nat (String.length s)))
    with (Z.of_nat (String.length s)) by (unfold Py.adjust; destruct (Z.ltb_spec (Z.of_nat (String.length s)) 0); lia).
  set (a := Py.adjust _ k) in *.
  replace (Z.to_nat (Z.of_nat (String.length s) - a))
    with (String.length s - Z.to_nat a)%nat by lia.
  apply substring_suffix.
Qed.

Lemma stack_ok_last (l : list ContextType) :
  stack_ok l -> exists c, Py.last l = Some c.
Proof. intros (rest & -> & _). simpl. eauto. Qed.

Lemma stack_ok_push (l : list ContextType) (c : ContextType) :
  stack_ok l -> c <> TOP_LEVEL -> stack_ok (l ++ [c]).
Proof.
  intros (rest & -> & Hn) Hc. exists (rest ++ [c])%list. split; [reflexivity|].
  rewrite in_app_iff. simpl. intuition congruence.
Qed.

Lemma stack_ok_pop (l : list ContextType) (c : ContextType) :
  stack_ok l -> Py.last l = Some c -> c <> TOP_LEVEL ->
  exists l', Py.pop l = Some l' /\ stack_ok l' /\ l = (l' ++ [c])%list.
Proof.
  intros (rest & -> & Hn) Hl Hc. simpl in Hl. injection Hl as Hl.
  destruct rest as [|x rest] using rev_ind; [simpl in Hl; congruence|].
  clear IHrest. rewrite last_last in Hl. subst x.
  exists (TOP_LEVEL :: rest). repeat split.
  - unfold Py.pop. f_equal.
    change (TOP_LEVEL :: rest ++ [c])%list with ((TOP_LEVEL :: rest) ++ [c])%list.
    apply removelast_last.
  - exists rest. split; [reflexivity|]. intros Hin. apply Hn.
    rewrite in_app_iff. now left.
Qed.

Lemma inv_with_position (p : Z) (st : State) :
  scan_inv st -> scan_inv (with_position p st).
Proof. intros H; exact H. Qed.

Lemma inv_set_respawn (r : RespawnReason) (st : State) :
  scan_inv st -> scan_inv (set_respawn r st).
Proof.
  intros [Hs Hc]. unfold set_respawn.
  destruct (respawn_position st) eqn:E; [now split|].
  split; [exact Hs|]. right. do 3 eexists. simpl. repeat split.
Qed.

Lemma inv_clear_respawn (r : RespawnReason) (st : State) :
  scan_inv st -> scan_inv (clear_respawn r st).
Proof.
  intros [Hs Hc]. unfold clear_respawn.
  destruct (respawn_reason st) as [pending|]; [|now split].
  destruct (reason_eqb r pending); [|now split].
  split; [exact Hs|]. left. simpl. auto.
Qed.

Lemma stack_set_respawn (r : RespawnReason) (st : State) :
  context_stack (set_respawn r st) = context_stack st.
Proof. unfold set_respawn. now destruct (respawn_position st). Qed.

Lemma stack_clear_respawn (r : RespawnReason) (st : State) :
  context_stack (clear_respawn r st) = context_stack st.
Proof.
  unfold clear_respawn. destruct (respawn_reason st) as [pending|]; [|reflexivity].
  now destruct (reason_eqb r pending).
Qed.

Lemma inv_push (c : ContextType) (st : State) :
  scan_inv st -> c <> TOP_LEVEL -> scan_inv (push c st).
Proof.
  intros [Hs Hc] Hne. split; [|exact Hc]. simpl. now apply stack_ok_push.
Qed.

Lemma inv_pop (c : ContextType) (st : State) :
  scan_inv st -> Py.last (context_stack st) = Some c -> c <> TOP_LEVEL ->
  exists st', pop st = Some st' /\ scan_inv st'.
Proof.
  intros [Hs Hc] Hl Hne.
  destruct (stack_ok_pop _ _ Hs Hl Hne) as (l' & Hp & Hs' & _).
  unfold pop. rewrite Hp. eexists; split; [reflexivity|]. now split.
Qed.

Lemma inv_replace (c c' : ContextType) (st : State) :
  scan_inv st -> Py.last (context_stack st) = Some c -> c <> TOP_LEVEL ->
  c' <> TOP_LEVEL ->
  exists st', replace c' st = Some st' /\ scan_inv st'.
Proof.
  intros [Hs Hc] Hl Hne Hne'.
  destruct (stack_ok_pop _ _ Hs Hl Hne) as (l' & Hp & Hs' & _).
  unfold replace. rewrite Hp. eexists; split; [reflexivity|].
  split; [|exact Hc]. simpl. now apply stack_ok_push.
Qed.

Lemma inv_start_any (char : ascii) (st : State) :
  scan_inv st -> scan_inv (start_any char st).
Proof.
  intros H. unfold start_any.
  repeat match goal with
         | |- context [if ?b then _ else _] => destruct b
         end; try exact H; apply inv_push; trivial; discriminate.
Qed.

Create HintDb scan.

#[local] Hint Resolve inv_with_position inv_set_respawn inv_clear_respawn
  inv_push inv_start_any : scan.

Lemma loop_body_inv (json : string) (i : nat) (st : State) :
  scan_inv st -> (i < String.length json)%nat ->
  exists st', loop_body json i st = Some st' /\ scan_inv st'.
Proof.
  intros Hinv Hi. unfold loop_body.
  destruct (get_in_range json i Hi) as [char Hchar].
  cbn [position with_position]. rewrite (index_in_range json i Hi), Hchar.
  set (st1 := with_position (Z.of_nat i) st).
  assert (H1 : scan_inv st1) by (apply inv_with_position; exact Hinv).
  destruct (stack_ok_last _ (proj1 H1)) as [ctx Hctx]. rewrite Hctx.
  assert (Hpop : forall r, ctx <> TOP_LEVEL ->
            exists st', pop (clear_respawn r st1) = Some st' /\ scan_inv st').
  { intros r Hne. apply (inv_pop ctx); auto with scan.
    now rewrite stack_clear_respawn. }
  assert (Hrep : forall c', ctx <> TOP_LEVEL -> c' <> TOP_LEVEL ->
            exists st', replace c' st1 = Some st' /\ scan_inv st').
  { intros c' Hne Hne'. now apply (inv_replace ctx). }
  assert (Hreps : forall r c', ctx <> TOP_LEVEL -> c' <> TOP_LEVEL ->
            exists st', replace c' (set_respawn r st1) = Some st' /\ scan_inv st').
  { intros r c' Hne Hne'. apply (inv_replace ctx); auto with scan.
    now rewrite stack_set_respawn. }
  assert (Hrepc : forall r c', ctx <> TOP_LEVEL -> c' <> TOP_LEVEL ->
            exists st', replace c' (clear_respawn r st1) = Some st' /\ scan_inv st').
  { intros r c' Hne Hne'. apply (inv_replace ctx); auto with scan.
    now rewrite stack_clear_respawn. }
  assert (Hpop0 : ctx <> TOP_LEVEL -> exists st', pop st1 = Some st' /\ scan_inv st').
  { intros Hne. now apply (inv_pop ctx). }
  assert (Hpopd : ctx <> TOP_LEVEL ->
            exists st', pop (dont_consume_character st1) = Some st' /\ scan_inv st').
  { intros Hne. now apply (inv_pop ctx). }
  destruct ctx;
    repeat match goal with
           | |- context [if ?b then _ else _] => destruct b
           end;
    try (eexists; split; [reflexivity|]; auto with scan; fail);
    try (apply Hpop; discriminate);
    try (apply Hpop0; discriminate);
    try (apply Hpopd; discriminate);
    try (apply Hrep; discriminate);
    try (apply Hreps; discriminate);
    try (eexists; split; [reflexivity|]; apply inv_push;
         [apply inv_set_respawn; exact H1 | discriminate]);
    try (eexists; split; [reflexivity|]; apply inv_push;
         [exact H1 | discriminate]).
  all: match goal with
       | |- context [replace ?c (clear_respawn ?r _)] =>
           destruct (Hrepc r c) as (st2 & -> & H2); try discriminate
       | |- context [replace ?c (set_respawn ?r _)] =>
           destruct (Hreps r c) as (st2 & -> & H2); try discriminate
       end.
  all: eexists; split; [reflexivity|]; auto with scan.
  apply inv_push; [exact H2 | discriminate].
Qed.

Lemma for_each_app (body : nat -> State -> option State) (l1 l2 : list nat)
    (st : State) :
  for_each body (l1 ++ l2) st = (st' <- for_each body l1 st ;; for_each body l2 st').
Proof.
  revert st; induction l1 as [|i l1 IH]; intros st; simpl; [reflexivity|].
  destruct (body i st); [apply IH | reflexivity].
Qed.

Lemma scan_upto_S (json : string) (k : nat) :
  scan_upto json (S k) = (st <- scan_upto json k ;; loop_body json k st).
Proof.
  unfold scan_upto. rewrite seq_S, for_each_app. simpl.
  destruct (for_each _ _ _); [|reflexivity]. now destruct (loop_body json k s).
Qed.

Lemma scan_upto_inv (json : string) (k : nat) :
  (k <= String.length json)%nat ->
  exists st, scan_upto json k = Some st /\ scan_inv st.
Proof.
  induction k as [|k IH]; intros Hk.
  - exists initial_state. split; [reflexivity|]. split.
    + exists []. now split.
    + left. now repeat split.
  - destruct IH as (st & E & Hinv); [lia|].
    rewrite scan_upto_S, E. apply loop_body_inv; [exact Hinv | lia].
Qed.

(** ** Facts about the completion synthesizer *)

Lemma string_app_empty_r (s : string) : s ++ EmptyString = s.
Proof. induction s as [|c s IH]; simpl; [reflexivity | now rewrite IH]. Qed.

Lemma join_cons (x : string) (l : list string) :
  String.concat EmptyString (x :: l) = x ++ String.concat EmptyString l.
Proof. destruct l; simpl; [now rewrite string_app_empty_r | reflexivity]. Qed.

Lemma finish_word_spec (json word : string) (result : list string) :
  word = "true" \/ word = "false" \/ word = "null" ->
  exists f, finish_word json word result = Some (result ++ [f])%list
            /\ literal_tail f.
Proof.
  intros Hw. unfold finish_word.
  assert (exists c, Py.index word 0 = Some c) as [c ->]
    by (destruct Hw as [->|[->| ->]]; eexists; reflexivity).
  eexists; split; [reflexivity|].
  destruct (slice_from_suffix word (Py.len word - Py.rfind json c)) as [pre E].
  now exists word, pre.
Qed.

Lemma close_context_spec (json : string) (c : ContextType) (result : list string) :
  exists frags, close_context json c result = Some (result ++ frags)%list
                /\ Forall is_closing_fragment frags.
Proof.
  assert (Hlit : forall w, w = "true" \/ w = "false" \/ w = "null" ->
            exists frags, finish_word json w result = Some (result ++ frags)%list
                          /\ Forall is_closing_fragment frags).
  { intros w Hw. destruct (finish_word_spec json w result Hw) as (f & E & Hf).
    exists [f]. split; [exact E|]. constructor; [|constructor].
    unfold is_closing_fragment. tauto. }
  destruct c; simpl;
    try (exists []; split; [now rewrite app_nil_r | constructor]; fail);
    try (apply Hlit; tauto);
    (eexists [_]; split; [reflexivity|]; constructor; [|constructor];
     unfold is_closing_fragment; tauto).
Qed.

Lemma close_all_spec (json : string) (cs : list ContextType) (result : list string) :
  exists frags, close_all json cs result = Some (result ++ frags)%list
                /\ Forall is_closing_fragment frags.
Proof.
  revert result; induction cs as [|c cs IH]; intros result; simpl.
  - exists []. split; [now rewrite app_nil_r | constructor].
  - destruct (close_context_spec json c result) as (f1 & -> & H1).
    destruct (IH (result ++ f1)%list) as (f2 & -> & H2).
    exists (f1 ++ f2)%list. split; [now rewrite app_assoc|].
    apply Forall_app. now split.
Qed.

Lemma complete_spec (json : string) (st : State) :
  exists frags,
    complete json st = Some (kept_text json st ++ String.concat EmptyString frags)
    /\ close_all json (rev (kept_stack st)) [kept_text json st]
       = Some (kept_text json st :: frags)
    /\ Forall is_closing_fragment frags.
Proof.
  unfold complete.
  destruct (close_all_spec json (rev (kept_stack st)) [kept_text json st])
    as (frags & E & H).
  exists frags. rewrite E. simpl app. rewrite join_cons. auto.
Qed.

Lemma kept_text_prefix (json : string) (st : State) :
  exists rest, json = kept_text json st ++ rest.
Proof.
  unfold kept_text. destruct (respawn_position st) as [p|].
  - apply slice_to_prefix.
  - exists EmptyString. now rewrite string_app_empty_r.
Qed.

Lemma scan_total (json : string) : exists st, scan json = Some st /\ scan_inv st.
Proof. apply scan_upto_inv. lia. Qed.


(** ** The scanner follows the recognizer on strings, arrays and objects *)

Lemma last_snoc {A} (l : list A) (x : A) : Py.last (l ++ [x]) = Some x.
Proof.
  destruct l as [|y l]; [reflexivity|]. simpl. f_equal. apply last_last.
Qed.

Lemma pop_snoc {A} (l : list A) (x : A) : Py.pop (l ++ [x]) = Some l.
Proof.
  unfold Py.pop. destruct (l ++ [x])%list eqn:E.
  - now destruct l.
  - rewrite <- E. now rewrite removelast_last.
Qed.

Lemma ws_is_whitespace (c : ascii) : Json.ws c = is_whitespace c.
Proof.
  unfold Json.ws, is_whitespace.
  destruct (Ascii.eqb c "032"), (Ascii.eqb c "009"), (Ascii.eqb c "010"),
    (Ascii.eqb c "013"); reflexivity.
Qed.

Lemma whitespace_cases (c : ascii) :
  is_whitespace c = true ->
  c = "032"%char \/ c = "013"%char \/ c = "010"%char \/ c = "009"%char.
Proof.
  unfold is_whitespace. rewrite !orb_true_iff, !Ascii.eqb_eq. tauto.
Qed.

Lemma simple_escape_cases (c : ascii) :
  Json.simple_escape c = true ->
  c = DQ \/ c = BACKSLASH \/ c = "/"%char \/ c = "b"%char \/ c = "f"%char
  \/ c = "n"%char \/ c = "r"%char \/ c = "t"%char.
Proof.
  unfold Json.simple_escape. rewrite !orb_true_iff, !Ascii.eqb_eq. tauto.
Qed.

Lemma slice_to_index (s : string) (k : nat) :
  (k <= String.length s)%nat -> Py.slice_to s (Z.of_nat k) = substring 0 k s.
Proof.
  intros Hk. unfold Py.slice_to, Py.slice, Py.adjust, Py.len.
  destruct (Z.ltb_spec 0 0); [lia|].
  destruct (Z.ltb_spec (Z.of_nat k) 0); [lia|].
  rewrite Z.min_l by lia. rewrite Z.min_l by lia.
  simpl. now rewrite Z.sub_0_r, Nat2Z.id.
Qed.

Lemma run_app (full : bool) (s : list Frame) (a b : string) :
  Json.run full s (a ++ b) = (s' <- Json.run full s a ;; Json.run full s' b).
Proof.
  revert s; induction a as [|c a IH]; intros s; simpl; [reflexivity|].
  destruct (Json.step full s c); [apply IH | reflexivity].
Qed.

Lemma substring_S (s : string) (k : nat) (c : ascii) :
  String.get k s = Some c ->
  substring 0 (S k) s = substring 0 k s ++ String c EmptyString.
Proof.
  revert k; induction s as [|a s IH]; intros k Hk; [now destruct k|].
  destruct k as [|k]; simpl in *.
  - injection Hk as ->. now destruct s.
  - now rewrite (IH k Hk).
Qed.

Lemma substring_all (s : string) : substring 0 (String.length s) s = s.
Proof. induction s as [|a s IH]; simpl; [reflexivity | now rewrite IH]. Qed.

Lemma stack_length (B : list Frame) (c : ContextType) :
  Z.of_nat (length (rev (map context_of B) ++ [c]))
  = Z.of_nat (S (length B)).
Proof.
  rewrite length_app, length_rev, length_map. simpl. f_equal. lia.
Qed.

(** Splitting the step of the recognizer into the characters it accepts. *)
Ltac split_step H :=
  repeat match type of H with
    | (if is_whitespace ?c then _ else _) = _ =>
        let E := fresh "Ews" in
        destruct (is_whitespace c) eqn:E;
        [apply whitespace_cases in E; destruct E as [->|[->|[->| ->]]]|]
    | (if Ascii.eqb ?c ?x then _ else _) = _ =>
        let E := fresh "Ec" in
        destruct (Ascii.eqb c x) eqn:E; [apply Ascii.eqb_eq in E; subst c|]
    | (if Json.simple_escape ?c then _ else _) = _ =>
        let E := fresh "Eesc" in
        destruct (Json.simple_escape c) eqn:E;
        [apply simple_escape_cases in E;
         destruct E as [->|[->|[->|[->|[->|[->|[->| ->]]]]]]]|]
    | (if Json.control ?c then _ else _) = _ =>
        let E := fresh "Ectl" in destruct (Json.control c) eqn:E
    | (if negb false then _ else _) = _ => cbn [negb] in H
    | (if (_ && false)%bool then _ else _) = _ => rewrite andb_false_r in H
    | None = Some _ => discriminate H
    | Some _ = Some _ => injection H as H
    end.

(** The tests of the loop body on a character that is not known. *)
Ltac use_tests :=
  repeat match goal with
    | E : Ascii.eqb _ _ = false |- _ => rewrite ?E; clear E
    | E : is_whitespace _ = false |- _ => rewrite ?E; clear E
    end.

(** The state after the step is related to the frames after the step. *)
Ltac solve_shape :=
  solve [ eauto using base_done, base_array, base_object
        | unfold object_open; auto ].

Ltac solve_checkpoint :=
  cbn [checkpoint_is respawn_position respawn_stack_length respawn_reason];
  first
    [ solve [repeat split]
    | solve [eexists; repeat split; eauto]
    | solve [eexists; repeat split; eauto; rewrite stack_length; reflexivity] ].

Ltac solve_sim :=
  split; [reflexivity|];
  first
    [ solve [eexists; split; [apply shape_start | solve_checkpoint]]
    | solve [eexists; split; [apply shape_string|]; try solve_checkpoint; solve_shape]
    | solve [eexists; split; [apply shape_array_first|]; try solve_checkpoint; solve_shape]
    | solve [eexists; split; [apply shape_object_first|]; try solve_checkpoint; solve_shape]
    | solve [eexists; split; [apply shape_escape|]; try solve_checkpoint; solve_shape]
    | solve [eexists; split; [apply shape_array_value|]; try solve_checkpoint; solve_shape]
    | solve [eexists; split; [apply shape_object_key|]; try solve_checkpoint; solve_shape]
    | solve [eexists; split; [eapply shape_key|]; try solve_checkpoint; solve_shape]
    | solve [eexists; split; [eapply shape_key_escape|]; try solve_checkpoint; solve_shape]
    | solve [eexists; split; [eapply shape_object_colon|]; try solve_checkpoint; solve_shape]
    | solve [eexists; split; [eapply shape_object_value|]; try solve_checkpoint; solve_shape]
    | solve [eexists; split; [apply shape_base|]; try solve_checkpoint; solve_shape] ].

Lemma pop_state l c p a b r :
  pop (mkState (l ++ [c]) p a b r) = Some (mkState l p a b r).
Proof. unfold pop. cbn [context_stack]. now rewrite pop_snoc. Qed.

Lemma replace_state c' l c p a b r :
  replace c' (mkState (l ++ [c]) p a b r) = Some (mkState (l ++ [c']) p a b r).
Proof. unfold replace. cbn [context_stack]. now rewrite pop_snoc. Qed.

(** Running the loop body on a state given by its fields. *)
Ltac scanner_step :=
  use_tests;
  unfold with_position, set_respawn, clear_respawn, dont_consume_character;
  cbn [context_stack position respawn_position respawn_stack_length
       respawn_reason reason_eqb];
  rewrite ?pop_state, ?replace_state; cbn;
  eexists; split; [reflexivity|]; solve_sim.

(** One character: where the recognizer steps, the loop body does not raise
    and the two stay related.  The proof goes through the shapes of the
    frames and, for each, through the characters the recognizer accepts. *)
Lemma sim_step (json : string) (k : nat) (c : ascii) (vs vs' : list Frame)
    (st : State) :
  sim json vs st ->
  (k < String.length json)%nat ->
  String.get k json = Some c ->
  Json.run false [FValue] (substring 0 k json) = Some vs ->
  Json.step false vs c = Some vs' ->
  exists st', loop_body json k st = Some st' /\ sim json vs' st'.
Proof.
  intros (Hcs & pend & Hsh & Hp) Hk Hget Hrun Hstep.
  assert (Hkept : Json.run false [FValue] (Py.slice_to json (Z.of_nat k)) = Some vs)
    by (rewrite slice_to_index by lia; exact Hrun).
  clear Hrun.
  destruct st as [cs pos rp rl rr]. cbn [context_stack] in Hcs. subst cs.
  unfold loop_body.
  cbn [with_position position context_stack respawn_position
       respawn_stack_length respawn_reason].
  rewrite (index_in_range json k Hk), Hget.
  inversion Hsh; subst; clear Hsh;
    try match type of Hstep with
        | Json.step false ?v c = _ =>
            is_var v;
            match goal with H : base v |- _ => inversion H; subst; clear H end
        end;
    cbn [checkpoint_is respawn_position respawn_stack_length respawn_reason] in Hp;
    unfold Json.step, Json.after_value, Json.start_value in Hstep;
    rewrite ?ws_is_whitespace in Hstep;
    cbn [map rev context_of]; rewrite ?last_snoc.
  all: try (destruct Hp as (-> & -> & ->)).
  all: try (destruct Hp as (p & -> & -> & -> & Hp)).
  all: split_step Hstep.
  all: subst vs'; scanner_step.
Qed.

(** Only white space keeps the recognizer before the value. *)
Lemma step_to_value (vs : list Frame) (c : ascii) pend :
  shape vs pend -> Json.step false vs c = Some [FValue] ->
  vs = [FValue] /\ is_whitespace c = true.
Proof.
  intros Hsh Hstep.
  inversion Hsh; subst; clear Hsh;
    try match type of Hstep with
        | Json.step false ?v c = _ =>
            is_var v;
            match goal with H : base v |- _ => inversion H; subst; clear H end
        end;
    unfold Json.step, Json.after_value, Json.start_value in Hstep;
    rewrite ?ws_is_whitespace in Hstep.
  all: repeat match type of Hstep with
         | (if is_whitespace ?c then _ else _) = _ =>
             let E := fresh "Ews" in destruct (is_whitespace c) eqn:E
         | (if Ascii.eqb ?c ?x then _ else _) = _ => destruct (Ascii.eqb c x)
         | (if Json.simple_escape ?c then _ else _) = _ =>
             destruct (Json.simple_escape c)
         | (if Json.control ?c then _ else _) = _ => destruct (Json.control c)
         | (if negb false then _ else _) = _ => cbn [negb] in Hstep
         | (if (_ && false)%bool then _ else _) = _ =>
             rewrite andb_false_r in Hstep
         end.
  all: try discriminate Hstep.
  all: try (split; reflexivity).
  all: injection Hstep as Hstep; subst;
    match goal with H : base _ |- _ => inversion H end.
Qed.

Lemma all_whitespace_app (a b : string) :
  all_whitespace (a ++ b) = all_whitespace a && all_whitespace b.
Proof.
  induction a as [|c a IH]; simpl; [reflexivity|].
  now rewrite IH, andb_assoc.
Qed.

(** The scan of a text that the recognizer has not refused. *)
Lemma scan_upto_sim (json : string) (vf : list Frame) :
  Json.run false [FValue] json = Some vf ->
  forall k, (k <= String.length json)%nat ->
  exists vs st,
    Json.run false [FValue] (substring 0 k json) = Some vs
    /\ scan_upto json k = Some st
    /\ sim json vs st
    /\ (vs = [FValue] -> all_whitespace (substring 0 k json) = true).
Proof.
  intros Hrun k. induction k as [|k IH]; intros Hk.
  - exists [FValue], initial_state. replace (substring 0 0 json) with EmptyString
      by (now destruct json).
    repeat split. exists None. split; [constructor | repeat split].
  - destruct IH as (vs & st & Hvs & Hst & Hsim & Hblank); [lia|].
    destruct (get_in_range json k) as [c Hc]; [lia|].
    destruct (substring_prefix json (S k)) as [rest Hrest].
    rewrite Hrest, run_app in Hrun.
    destruct (Json.run false [FValue] (substring 0 (S k) json)) as [vs'|] eqn:Hvs';
      [|discriminate].
    assert (Hstep : Json.step false vs c = Some vs').
    { rewrite (substring_S json k c Hc), run_app, Hvs in Hvs'. simpl in Hvs'.
      now destruct (Json.step false vs c). }
    destruct (sim_step json k c vs vs' st Hsim) as (st' & Hst' & Hsim');
      [lia | exact Hc | exact Hvs | exact Hstep |].
    exists vs', st'. split; [reflexivity|]. split; [|split; [exact Hsim'|]].
    + now rewrite scan_upto_S, Hst.
    + intros ->. destruct Hsim as (_ & pend & Hsh & _).
      destruct (step_to_value vs c pend Hsh Hstep) as [Hv Hw].
      rewrite (substring_S json k c Hc), all_whitespace_app, (Hblank Hv).
      simpl. now rewrite Hw.
Qed.

(** Closing what is left open: the closers the synthesizer appends for the
    contexts are the characters that end the frames. *)
Lemma close_base (json : string) (B : list Frame) :
  base B ->
  forall result, exists frags,
    close_all json (map context_of B) result = Some (result ++ frags)%list
    /\ forall full, Json.run full B (String.concat EmptyString frags) = Some [FDone].
Proof.
  induction 1 as [|B HB IH|B HB IH]; intros result.
  - exists []. split; [simpl; now rewrite app_nil_r | reflexivity].
  - destruct (IH (result ++ ["]"])%list) as (frags & E & Hr).
    exists ("]" :: frags)%list. split.
    + simpl. rewrite E. now rewrite <- app_assoc.
    + intros full. rewrite join_cons. simpl. apply Hr.
  - destruct (IH (result ++ ["}"])%list) as (frags & E & Hr).
    exists ("}" :: frags)%list. split.
    + simpl. rewrite E. now rewrite <- app_assoc.
    + intros full. rewrite join_cons. simpl. apply Hr.
Qed.

Lemma close_top (json kept : string) (f : Frame) (c : ContextType)
    (B : list Frame) :
  base B -> closing_pair f c ->
  Json.run false [FValue] kept = Some (f :: B) ->
  exists frags,
    close_all json (c :: map context_of B) [kept] = Some (kept :: frags)
    /\ Json.is_structural_json (kept ++ String.concat EmptyString frags) = true.
Proof.
  intros HB Hpair Hrun.
  assert (Hgen : forall ch : ascii,
            close_all json (c :: map context_of B) [kept]
            = close_all json (map context_of B) [kept; String ch EmptyString] ->
            Json.step false (f :: B) ch = Some B ->
            exists frags,
              close_all json (c :: map context_of B) [kept] = Some (kept :: frags)
              /\ Json.is_structural_json (kept ++ String.concat EmptyString frags)
                 = true).
  { intros ch Ec Hs.
    destruct (close_base json B HB [kept; String ch EmptyString]) as (frags & E & Hr).
    exists (String ch EmptyString :: frags)%list. split.
    - now rewrite Ec, E.
    - unfold Json.is_structural_json, Json.accepts.
      rewrite run_app, Hrun, join_cons. cbn [append Json.run]. rewrite Hs.
      now rewrite Hr. }
  destruct Hpair as [[-> ->]|[[Hf Hc]|[Hf Hc]]].
  - apply (Hgen DQ); reflexivity.
  - apply (Hgen "]"%char).
    + destruct Hc as [->| ->]; reflexivity.
    + destruct Hf as [->| ->]; reflexivity.
  - apply (Hgen "}"%char).
    + destruct Hc as [->|[->|[->| ->]]]; reflexivity.
    + destruct Hf as [->| ->]; reflexivity.
Qed.

(** What the recognizer of strings, arrays and objects accepts is JSON. *)
Lemma step_full (s s' : list Frame) (c : ascii) :
  Json.step false s c = Some s' -> Json.step true s c = Some s'.
Proof.
  destruct s as [|f s]; [discriminate|].
  destruct f; unfold Json.step, Json.start_value; cbn [negb];
    rewrite ?andb_false_r; intros H;
    repeat match type of H with
      | (if ?b then _ else _) = _ => destruct b
      end;
    try discriminate H; exact H.
Qed.

Lemma run_full (text : string) (s s' : list Frame) :
  Json.run false s text = Some s' -> Json.run true s text = Some s'.
Proof.
  revert s; induction text as [|c text IH]; intros s H; [exact H|].
  simpl in *. destruct (Json.step false s c) as [s1|] eqn:E; [|discriminate].
  rewrite (step_full _ _ _ E). now apply IH.
Qed.

Lemma structural_is_json (text : string) :
  Json.is_structural_json text = true -> Json.is_json text = true.
Proof.
  unfold Json.is_structural_json, Json.is_json, Json.accepts.
  destruct (Json.run false [FValue] text) as [s|] eqn:E; [|discriminate].
  now rewrite (run_full _ _ _ E).
Qed.

Lemma firstn_exact {A} (a b : list A) (n : nat) :
  n = length a -> firstn n (a ++ b) = a.
Proof.
  intros ->. rewrite firstn_app, Nat.sub_diag, firstn_all. simpl.
  apply app_nil_r.
Qed.

Lemma kept_stack_pending (st : State) (top : list Frame) (f : Frame)
    (B : list Frame) :
  context_stack st = rev (map context_of (top ++ f :: B)) ->
  respawn_stack_length st = Some (Z.of_nat (S (length B))) ->
  rev (kept_stack st) = context_of f :: map context_of B.
Proof.
  intros Hcs Hl. unfold kept_stack. rewrite Hl, Hcs.
  rewrite map_app, rev_app_distr, length_app, !length_rev, !length_map.
  cbn [length]. unfold Py.adjust.
  destruct (Z.ltb_spec (Z.of_nat (S (length B))) 0); [lia|].
  rewrite Z.min_l by lia. rewrite Nat2Z.id.
  rewrite firstn_exact by (now rewrite length_rev, length_map).
  apply rev_involutive.
Qed.

Lemma complete_pending (json : string) (st : State) (top : list Frame)
    (f' f : Frame) (B : list Frame) (p : Z) :
  context_stack st = rev (map context_of (top ++ f' :: B)) ->
  respawn_position st = Some p ->
  respawn_stack_length st = Some (Z.of_nat (length (f :: B))) ->
  Json.run false [FValue] (Py.slice_to json p) = Some (f :: B) ->
  base B -> closing_pair f (context_of f') ->
  exists out, complete json st = Some out
              /\ Json.is_structural_json out = true.
Proof.
  intros Hcs Hp Hl Hrun HB Hpair. unfold complete.
  rewrite (kept_stack_pending st top f' B Hcs Hl).
  unfold kept_text. rewrite Hp.
  destruct (close_top json _ f (context_of f') B HB Hpair Hrun) as (frags & -> & Hj).
  eexists; split; [reflexivity|]. now rewrite join_cons.
Qed.

Lemma complete_quiet (json : string) (st : State) (vs : list Frame) :
  context_stack st = rev (map context_of vs) ->
  respawn_position st = None ->
  respawn_stack_length st = None ->
  Json.run false [FValue] json = Some vs ->
  base vs \/ (exists f B, vs = f :: B /\ base B /\ closing_pair f (context_of f)) ->
  exists out, complete json st = Some out
              /\ Json.is_structural_json out = true.
Proof.
  intros Hcs Hp Hl Hrun Hvs. unfold complete, kept_stack, kept_text.
  rewrite Hp, Hl, Hcs, rev_involutive.
  destruct Hvs as [HB|(f & B & -> & HB & Hpair)].
  - destruct (close_base json vs HB [json]) as (frags & -> & Hr).
    eexists; split; [reflexivity|]. cbn [app]. rewrite join_cons.
    unfold Json.is_structural_json, Json.accepts. now rewrite run_app, Hrun, Hr.
  - destruct (close_top json json f (context_of f) B HB Hpair Hrun)
      as (frags & E & Hj).
    cbn [map]. rewrite E.
    eexists; split; [reflexivity|]. now rewrite join_cons.
Qed.

(** The repair of a text that the recognizer of strings, arrays and objects
    has not refused is made of strings, arrays and objects. *)
Lemma viable_output (x : string) (vf : list Frame) :
  Json.run false [FValue] x = Some vf ->
  all_whitespace x = false ->
  exists out, untruncate_json x = Some out
              /\ Json.is_structural_json out = true.
Proof.
  intros Hrun Hnb.
  destruct (scan_upto_sim x vf Hrun (String.length x) (le_n _))
    as (vs & st & Hvs & Hst & (Hcs & pend & Hsh & Hp) & Hblank).
  rewrite substring_all in Hvs, Hblank.
  unfold untruncate_json, scan. rewrite Hst.
  inversion Hsh; subst; clear Hsh;
    cbn [checkpoint_is] in Hp.
  - rewrite Hblank in Hnb by reflexivity. discriminate.
  - destruct Hp as (Hp & Hl & _). apply (complete_quiet x st vs); auto.
  - destruct Hp as (Hp & Hl & _). apply (complete_quiet x st _ Hcs); auto.
    right. do 2 eexists. split; [reflexivity|]. split; [assumption|].
    unfold closing_pair; cbn; tauto.
  - destruct Hp as (Hp & Hl & _). apply (complete_quiet x st _ Hcs); auto.
    right. do 2 eexists. split; [reflexivity|]. split; [assumption|].
    unfold closing_pair; cbn; tauto.
  - destruct Hp as (Hp & Hl & _). apply (complete_quiet x st _ Hcs); auto.
    right. do 2 eexists. split; [reflexivity|]. split; [assumption|].
    unfold closing_pair; cbn; tauto.
  - destruct Hp as (p & Hp & Hl & _ & Hk).
    apply (complete_pending x st [FEscape] FString FString B p); auto.
    unfold closing_pair; cbn; tauto.
  - destruct Hp as (p & Hp & Hl & _ & Hk).
    apply (complete_pending x st [] FArrayValue FArrayComma B p); auto.
    unfold closing_pair; cbn; tauto.
  - destruct Hp as (p & Hp & Hl & _ & Hk).
    apply (complete_pending x st [] FObjectKey FObjectComma B p); auto.
    unfold closing_pair; cbn; tauto.
  - destruct Hp as (p & Hp & Hl & _ & Hk).
    apply (complete_pending x st [FString] FObjectColon f B p); auto.
    unfold closing_pair, object_open in *; cbn; tauto.
  - destruct Hp as (p & Hp & Hl & _ & Hk).
    apply (complete_pending x st [FEscape; FString] FObjectColon f B p); auto.
    unfold closing_pair, object_open in *; cbn; tauto.
  - destruct Hp as (p & Hp & Hl & _ & Hk).
    apply (complete_pending x st [] FObjectColon f B p); auto.
    unfold closing_pair, object_open in *; cbn; tauto.
  - destruct Hp as (p & Hp & Hl & _ & Hk).
    apply (complete_pending x st [] FObjectValue f B p); auto.
    unfold closing_pair, object_open in *; cbn; tauto.
Qed.

(** The repair of a text cut out of strings, arrays and objects is again made
    of strings, arrays and objects. *)
Lemma structural_output (x rest : string) :
  Json.is_structural_json (x ++ rest) = true ->
  all_whitespace x = false ->
  exists out, untruncate_json x = Some out
              /\ Json.is_structural_json out = true.
Proof.
  intros Hacc Hnb.
  unfold Json.is_structural_json, Json.accepts in Hacc. rewrite run_app in Hacc.
  destruct (Json.run false [FValue] x) as [vf|] eqn:Hrun; [|discriminate].
  now apply (viable_output x vf).
Qed.

(** A whole text of strings, arrays and objects leaves nothing open. *)
Lemma structural_fixed (document : string) :
  Json.is_structural_json document = true ->
  untruncate_json document = Some document.
Proof.
  intros Hacc. unfold Json.is_structural_json, Json.accepts in Hacc.
  destruct (Json.run false [FValue] document) as [vf|] eqn:Hrun; [|discriminate].
  destruct (scan_upto_sim document vf Hrun (String.length document) (le_n _))
    as (vs & st & Hvs & Hst & (Hcs & pend & Hsh & Hp) & _).
  rewrite substring_all, Hrun in Hvs. injection Hvs as <-.
  unfold untruncate_json, scan. rewrite Hst.
  assert (Hdone : vf = [FDone] /\ pend = None).
  { inversion Hsh; subst; try discriminate Hacc;
      try (destruct B as [|? [|? ?]]; discriminate Hacc).
    match goal with H : base _ |- _ => inversion H; subst end;
      [auto | discriminate Hacc | discriminate Hacc]. }
  destruct Hdone as [-> ->]. destruct Hp as (Hp & Hl & _).
  unfold complete, kept_stack, kept_text. rewrite Hp, Hl, Hcs. reflexivity.
Qed.

(** ** The shape of the stack and the bounds of the checkpoint *)

Lemma forallb_removelast {A} (f : A -> bool) (l : list A) :
  forallb f l = true -> forallb f (removelast l) = true.
Proof.
  destruct l as [|x l] using rev_ind; [trivial|].
  rewrite removelast_last, forallb_app, andb_true_iff. tauto.
Qed.

Lemma stack_ok_snoc (l : list ContextType) (c : ContextType) :
  stack_ok (l ++ [c]) -> c <> TOP_LEVEL -> (1 <= length l)%nat.
Proof.
  intros (rest & E & _) Hc. destruct l as [|x l]; simpl in *; [congruence|lia].
Qed.

Ltac split_ifs :=
  repeat match goal with
    | |- context [if ?b then _ else _] => destruct b
    end.

Ltac checkpoint_goal H0 :=
  first
    [ discriminate H0
    | injection H0 as <-;
      match goal with
      | H : forall p, _ = Some p -> _ |- _ =>
          destruct (H _ eq_refl) as [? (n & ? & ?)];
          split; [lia | exists n; split; [assumption | lia]]
      end
    | injection H0 as <-;
      split; [lia | eexists; split; [reflexivity | lia]] ].

Ltac shape_goal :=
  cbn [context_stack respawn_position respawn_stack_length];
  rewrite ?removelast_last, ?forallb_app, ?length_app;
  cbn [forallb is_inner length andb];
  split;
  [ rewrite ?andb_true_r; auto using forallb_removelast
  | split;
    [ lia
    | let p0 := fresh "p" in
      let H0 := fresh "Hp" in
      intros p0 H0; checkpoint_goal H0 ] ].

Lemma loop_body_shape (json : string) (k : nat) (st : State) :
  scan_inv st -> shape_inv k st -> (k < String.length json)%nat ->
  exists st', loop_body json k st = Some st' /\ shape_inv (S k) st'.
Proof.
  intros [Hok _] (Hin & Hlen & Hcp) Hk.
  destruct st as [cs pos rp rl rr].
  cbn [context_stack respawn_position respawn_stack_length] in *.
  destruct (stack_ok_last cs Hok) as [ctx Hctx].
  assert (Hcs : exists l, cs = (l ++ [ctx])%list).
  { destruct cs as [|x cs] using rev_ind; [discriminate|].
    rewrite last_snoc in Hctx. injection Hctx as ->. eauto. }
  destruct Hcs as [l ->]. clear Hctx.
  rewrite removelast_last in Hin. rewrite length_app in Hlen. cbn [length] in Hlen.
  assert (Hl : ctx <> TOP_LEVEL -> (1 <= length l)%nat)
    by (apply stack_ok_snoc; exact Hok).
  destruct (get_in_range json k Hk) as [char Hchar].
  unfold loop_body.
  cbn [with_position position context_stack respawn_position
       respawn_stack_length respawn_reason].
  rewrite (index_in_range json k Hk), Hchar, last_snoc.
  unfold shape_inv.
  destruct ctx; try specialize (Hl ltac:(discriminate));
    unfold dont_consume_character;
    unfold start_any, with_position, set_respawn, clear_respawn, push,
      with_stack;
    cbn [context_stack position respawn_position respawn_stack_length
         respawn_reason];
    destruct rp as [p|], rr as [[]|];
    cbn [reason_eqb];
    rewrite ?pop_state, ?replace_state;
    split_ifs;
    rewrite ?pop_state, ?replace_state;
    unfold push, with_stack;
    cbn [context_stack position respawn_position respawn_stack_length
         respawn_reason];
    (eexists; split; [reflexivity|]).
  all: shape_goal.
Qed.

Lemma scan_upto_shape (json : string) (k : nat) :
  (k <= String.length json)%nat ->
  exists st, scan_upto json k = Some st /\ scan_inv st /\ shape_inv k st.
Proof.
  induction k as [|k IH]; intros Hk.
  - exists initial_state. split; [reflexivity|]. split.
    + split; [exists []; now split | left; now repeat split].
    + split; [reflexivity|]. split; [simpl; lia | discriminate].
  - destruct IH as (st & E & Hinv & Hsh); [lia|].
    destruct (loop_body_inv json k st Hinv) as (st1 & E1 & Hinv1); [lia|].
    destruct (loop_body_shape json k st Hinv Hsh) as (st2 & E2 & Hsh2); [lia|].
    rewrite E1 in E2. injection E2 as <-.
    exists st1. rewrite scan_upto_S, E. auto.
Qed.

(** ** Scanning a text that is made of two *)

Lemma string_app_assoc (a b c : string) : (a ++ b) ++ c = a ++ (b ++ c).
Proof. induction a as [|x a IH]; simpl; [reflexivity | now rewrite IH]. Qed.

Lemma string_length_app (a b : string) :
  String.length (a ++ b) = (String.length a + String.length b)%nat.
Proof. induction a as [|x a IH]; simpl; [reflexivity | now rewrite IH]. Qed.

Lemma get_app_l (a b : string) (i : nat) :
  (i < String.length a)%nat -> String.get i (a ++ b) = String.get i a.
Proof.
  revert i; induction a as [|x a IH]; simpl; intros i Hi; [lia|].
  destruct i as [|i]; [reflexivity|]. apply IH; lia.
Qed.

Lemma get_app_r (a b : string) (j : nat) :
  String.get (String.length a + j) (a ++ b) = String.get j b.
Proof. induction a as [|x a IH]; simpl; [reflexivity | exact IH]. Qed.

Lemma substring_app_l (a b : string) :
  substring 0 (String.length a) (a ++ b) = a.
Proof. induction a as [|x a IH]; simpl; [now destruct b | now rewrite IH]. Qed.

Lemma substring_shorter (a b : string) (n : nat) :
  (n <= String.length a)%nat -> substring 0 n (a ++ b) = substring 0 n a.
Proof.
  revert n; induction a as [|x a IH]; simpl; intros n Hn.
  - assert (n = 0)%nat as -> by lia. now destruct b.
  - destruct n as [|n]; [reflexivity|]. rewrite IH by lia. reflexivity.
Qed.

Lemma rfind_below_app (a b : string) (c : ascii) (k : nat) :
  (k <= String.length a)%nat ->
  Py.rfind_below (a ++ b) c k = Py.rfind_below a c k.
Proof.
  induction k as [|k IH]; intros Hk; [reflexivity|].
  simpl. rewrite get_app_l by lia. rewrite IH by lia. reflexivity.
Qed.

Lemma rfind_to_index (s : string) (c : ascii) (k : nat) :
  (k <= String.length s)%nat ->
  Py.rfind_to s c (Z.of_nat k) = Py.rfind_below s c k.
Proof.
  intros Hk. unfold Py.rfind_to, Py.adjust, Py.len.
  destruct (Z.ltb_spec (Z.of_nat k) 0); [lia|].
  rewrite Z.min_l by lia. now rewrite Nat2Z.id.
Qed.

Lemma loop_body_app (a b : string) (i : nat) (st : State) :
  (i < String.length a)%nat ->
  loop_body (a ++ b) i st = loop_body a i st.
Proof.
  intros Hi. unfold loop_body.
  cbn [with_position position].
  rewrite !index_in_range by (rewrite ?string_length_app; lia).
  rewrite get_app_l by lia.
  rewrite !rfind_to_index by (rewrite ?string_length_app; lia).
  rewrite rfind_below_app by lia. reflexivity.
Qed.

Lemma scan_upto_app (a b : string) (k : nat) :
  (k <= String.length a)%nat -> scan_upto (a ++ b) k = scan_upto a k.
Proof.
  induction k as [|k IH]; intros Hk; [reflexivity|].
  rewrite !scan_upto_S, IH by lia.
  destruct (scan_upto a k); [|reflexivity]. apply loop_body_app. lia.
Qed.

(** The scan of [a ++ t] is the scan of [a], then the loop over [t]. *)
Lemma scan_app (a t : string) :
  scan (a ++ t)
  = (st <- scan a ;;
     for_each (loop_body (a ++ t))
       (seq (String.length a) (String.length t)) st).
Proof.
  unfold scan at 1, scan_upto.
  rewrite string_length_app, seq_app, for_each_app. simpl.
  change (for_each (loop_body (a ++ t)) (seq 0 (String.length a)) initial_state)
    with (scan_upto (a ++ t) (String.length a)).
  rewrite scan_upto_app by lia. reflexivity.
Qed.

Lemma scan_snoc (a : string) (c : ascii) :
  scan (a ++ String c EmptyString)
  = (st <- scan a ;; loop_body (a ++ String c EmptyString) (String.length a) st).
Proof.
  rewrite scan_app. destruct (scan a) as [st|]; [|reflexivity].
  simpl. now destruct (loop_body _ _ st).
Qed.

Lemma index_at_end (a t : string) (c : ascii) (j : nat) :
  String.get j t = Some c ->
  Py.index (a ++ t) (Z.of_nat (String.length a + j)) = Some c.
Proof.
  intros Hj.
  assert (j < String.length t)%nat.
  { revert j Hj. induction t as [|x t IH]; intros j Hj; [now destruct j|].
    destruct j as [|j]; simpl in *; [lia|]. apply IH in Hj. lia. }
  rewrite index_in_range by (rewrite string_length_app; lia).
  now rewrite get_app_r.
Qed.

(** ** Characters that a context ignores *)

Lemma with_position_twice (p p' : Z) (st : State) :
  with_position p (with_position p' st) = with_position p st.
Proof. reflexivity. Qed.

Lemma loop_body_ignored (json : string) (i : nat) (c : ascii) (st : State)
    (ctx : ContextType) :
  Py.index json (Z.of_nat i) = Some c ->
  Py.last (context_stack st) = Some ctx ->
  ignores ctx c = true ->
  loop_body json i st = Some (with_position (Z.of_nat i) st).
Proof.
  intros Hc Hctx Hig. unfold loop_body.
  cbn [with_position position context_stack]. rewrite Hc, Hctx.
  destruct ctx; unfold ignores, starts_value in Hig; unfold start_any;
    repeat match type of Hig with
      | context [Ascii.eqb ?a ?b] => destruct (Ascii.eqb a b)
      | context [Py.char_between ?a ?b ?d] => destruct (Py.char_between a b d)
      | context [is_whitespace ?a] => destruct (is_whitespace a)
      end;
    try discriminate Hig; reflexivity.
Qed.

Lemma for_each_ignored (json : string) (ctx : ContextType) (t : string) :
  forall (i : nat) (st : State),
    Py.last (context_stack st) = Some ctx ->
    (forall j c, String.get j t = Some c ->
                 Py.index json (Z.of_nat (i + j)) = Some c) ->
    all_ignored ctx t = true ->
    exists p, for_each (loop_body json) (seq i (String.length t)) st
              = Some (with_position p st).
Proof.
  induction t as [|c t IH]; intros i st Hctx Hget Hig.
  - exists (position st). now destruct st.
  - simpl in Hig. apply andb_true_iff in Hig. destruct Hig as [Hc Ht].
    cbn [String.length seq for_each].
    rewrite (loop_body_ignored json i c st ctx); trivial.
    + destruct (IH (S i) (with_position (Z.of_nat i) st)) as [p E]; trivial.
      * intros j d Hj. replace (S i + j)%nat with (i + S j)%nat by lia.
        now apply Hget.
      * exists p. now rewrite E.
    + replace i with (i + 0)%nat at 1 by lia. now apply Hget.
Qed.

Lemma scan_ignored (a t : string) (st : State) (ctx : ContextType) :
  scan a = Some st ->
  Py.last (context_stack st) = Some ctx ->
  all_ignored ctx t = true ->
  exists p, scan (a ++ t) = Some (with_position p st).
Proof.
  intros Ha Hctx Hig. rewrite scan_app, Ha.
  apply (for_each_ignored (a ++ t) ctx t); trivial.
  intros j c Hj. now apply index_at_end.
Qed.

(** ** The text appended for a stack without literals *)

Lemma close_all_fixed (json : string) (cs : list ContextType) :
  forallb (fun c => negb (is_literal c)) cs = true ->
  forall result,
    close_all json cs result = Some (result ++ flat_map fixed_closer cs)%list.
Proof.
  induction cs as [|c cs IH]; intros Hcs result.
  - simpl. now rewrite app_nil_r.
  - simpl in Hcs. apply andb_true_iff in Hcs. destruct Hcs as [Hc Hcs].
    cbn [close_all flat_map].
    assert (E : close_context json c result = Some (result ++ fixed_closer c)%list).
    { destruct c; try discriminate Hc; simpl; now rewrite ?app_nil_r. }
    rewrite E, IH by exact Hcs. now rewrite app_assoc.
Qed.

Lemma complete_fixed (json : string) (st : State) :
  forallb (fun c => negb (is_literal c)) (kept_stack st) = true ->
  complete json st = Some (kept_text json st ++ closing_text (kept_stack st)).
Proof.
  intros H. unfold complete. rewrite close_all_fixed.
  - simpl app. now rewrite join_cons.
  - rewrite forallb_forall in *. intros c Hc. apply H. now apply in_rev.
Qed.

Lemma inner_not_literal (l : list ContextType) :
  forallb is_inner l = true ->
  forallb (fun c => negb (is_literal c)) l = true.
Proof.
  rewrite !forallb_forall. intros H c Hc. specialize (H c Hc).
  now destruct c.
Qed.

Lemma forallb_firstn {A} (f : A -> bool) (n : nat) (l : list A) :
  forallb f l = true -> forallb f (firstn n l) = true.
Proof.
  rewrite !forallb_forall. intros H x Hx. apply H.
  rewrite <- (firstn_skipn n l). apply in_or_app. now left.
Qed.

Lemma kept_stack_no_literal (st : State) :
  forallb (fun c => negb (is_literal c)) (context_stack st) = true ->
  forallb (fun c => negb (is_literal c)) (kept_stack st) = true.
Proof.
  intros H. unfold kept_stack. destruct (respawn_stack_length st); trivial.
  now apply forallb_firstn.
Qed.

Lemma stack_no_literal (l : list ContextType) (ctx : ContextType) :
  forallb is_inner l = true -> is_literal ctx = false ->
  forallb (fun c => negb (is_literal c)) (l ++ [ctx]) = true.
Proof.
  intros Hl Hc. rewrite forallb_app, (inner_not_literal l Hl). simpl.
  now rewrite Hc.
Qed.

Lemma slice_to_app (a t : string) (p : Z) :
  (0 <= p <= Z.of_nat (String.length a))%Z ->
  Py.slice_to (a ++ t) p = Py.slice_to a p.
Proof.
  intros Hp.
  replace p with (Z.of_nat (Z.to_nat p)) by lia.
  rewrite !slice_to_index by (rewrite ?string_length_app; lia).
  apply substring_shorter. lia.
Qed.

(** What the scan of a whole text gives: the invariants, with the stack
    split into its top and what is below. *)
Lemma scan_shape (a : string) (st : State) (ctx : ContextType) :
  scan a = Some st ->
  Py.last (context_stack st) = Some ctx ->
  exists l, context_stack st = (l ++ [ctx])%list
            /\ forallb is_inner l = true
            /\ scan_inv st /\ shape_inv (String.length a) st.
Proof.
  intros Ha Hctx.
  destruct (scan_upto_shape a (String.length a) (le_n _)) as (st' & E & Hinv & Hsh).
  unfold scan in Ha. rewrite Ha in E. injection E as <-.
  assert (Hl : exists l, context_stack st = (l ++ [ctx])%list).
  { destruct (context_stack st) as [|x cs] using rev_ind; [discriminate|].
    rewrite last_snoc in Hctx. injection Hctx as ->. eauto. }
  destruct Hl as [l El]. exists l. split; [exact El|]. split; [|now split].
  destruct Hsh as (Hin & _). now rewrite El, removelast_last in Hin.
Qed.

(** ** Comparing the outputs for two texts *)

Lemma untruncate_of_scan (json : string) (st : State) :
  scan json = Some st -> untruncate_json json = complete json st.
Proof. intros E. unfold untruncate_json. now rewrite E. Qed.

Lemma closing_text_snoc (l : list ContextType) (c : ContextType) :
  closing_text (l ++ [c])
  = String.concat EmptyString (fixed_closer c) ++ closing_text l.
Proof.
  unfold closing_text. rewrite rev_app_distr. cbn [rev app flat_map].
  destruct (fixed_closer c) as [|f [|g fs]] eqn:E.
  - reflexivity.
  - cbn [app]. now rewrite join_cons.
  - destruct c; discriminate E.
Qed.

Lemma firstn_snoc {A} (m : nat) (l : list A) (x : A) :
  firstn m (l ++ [x]) = if (m <=? length l)%nat then firstn m l else (l ++ [x])%list.
Proof.
  destruct (Nat.leb_spec m (length l)).
  - rewrite firstn_app. replace (m - length l)%nat with 0%nat by lia.
    simpl. apply app_nil_r.
  - apply firstn_all2. rewrite length_app. simpl. lia.
Qed.

(** Replacing the top by a context with the same closing text, or pushing
    contexts without closing text, changes the text appended for no cut of
    the stack. *)
Lemma closing_firstn_top (m : nat) (l : list ContextType) (c1 c2 : ContextType) :
  fixed_closer c1 = fixed_closer c2 ->
  closing_text (firstn m (l ++ [c1])) = closing_text (firstn m (l ++ [c2])).
Proof.
  intros E. rewrite !firstn_snoc. destruct (m <=? length l)%nat; [reflexivity|].
  now rewrite !closing_text_snoc, E.
Qed.

Lemma closing_firstn_push (m : nat) (l : list ContextType) (c : ContextType) :
  fixed_closer c = [] ->
  closing_text (firstn m (l ++ [c])) = closing_text (firstn m l).
Proof.
  intros E. rewrite firstn_snoc. destruct (Nat.leb_spec m (length l)); [reflexivity|].
  rewrite closing_text_snoc, E. simpl. now rewrite firstn_all2 by lia.
Qed.

Lemma kept_stack_firstn (st : State) (n : Z) :
  respawn_stack_length st = Some n -> (0 <= n)%Z ->
  kept_stack st = firstn (Z.to_nat n) (context_stack st).
Proof.
  intros E Hn. unfold kept_stack, Py.adjust. rewrite E.
  destruct (Z.ltb_spec n 0); [lia|].
  destruct (Z.le_ge_cases n (Z.of_nat (length (context_stack st)))).
  - now rewrite Z.min_l by lia.
  - rewrite Z.min_r by lia. rewrite Nat2Z.id.
    rewrite firstn_all. symmetry. apply firstn_all2. lia.
Qed.

Lemma kept_stack_whole (st : State) :
  respawn_stack_length st = None -> kept_stack st = context_stack st.
Proof. intros E. unfold kept_stack. now rewrite E. Qed.

(** The output when nothing of the stack is a literal. *)
Lemma output_fixed (json : string) (st : State) :
  scan json = Some st ->
  forallb (fun c => negb (is_literal c)) (context_stack st) = true ->
  untruncate_json json
  = Some (kept_text json st ++ closing_text (kept_stack st)).
Proof.
  intros E H. rewrite (untruncate_of_scan json st E).
  apply complete_fixed. now apply kept_stack_no_literal.
Qed.

Lemma coherent_none (st : State) :
  scan_inv st -> respawn_position st = None ->
  respawn_stack_length st = None.
Proof.
  intros [_ [(_ & H & _)|(p & n & r & H & _)]] E; [exact H | congruence].
Qed.

(** A text after which the scan is where it was: with a checkpoint pending
    the output is the same, without one the text is kept and the same
    closing text follows it. *)
Lemma same_state_output (a t : string) (st : State) (ctx : ContextType) (p : Z) :
  scan a = Some st ->
  Py.last (context_stack st) = Some ctx ->
  is_literal ctx = false ->
  scan (a ++ t) = Some (with_position p st) ->
  match respawn_position st with
  | None =>
      exists closers,
        untruncate_json a = Some (a ++ closers)
        /\ untruncate_json (a ++ t) = Some (a ++ t ++ closers)
  | Some _ => untruncate_json (a ++ t) = untruncate_json a
  end.
Proof.
  intros Ha Hctx Hlit Hat.
  destruct (scan_shape a st ctx Ha Hctx) as (l & El & Hl & Hinv & Hsh).
  assert (Hno : forallb (fun c => negb (is_literal c)) (context_stack st) = true)
    by (rewrite El; now apply stack_no_literal).
  rewrite (output_fixed a st Ha Hno).
  rewrite (output_fixed (a ++ t) _ Hat Hno).
  change (kept_stack (with_position p st)) with (kept_stack st).
  change (kept_text (a ++ t) (with_position p st)) with (kept_text (a ++ t) st).
  unfold kept_text. destruct (respawn_position st) as [p0|] eqn:Ep.
  - destruct Hsh as (_ & _ & Hcp). destruct (Hcp p0 Ep) as [Hp0 _].
    rewrite slice_to_app by lia. reflexivity.
  - exists (closing_text (kept_stack st)). split; [reflexivity|].
    now rewrite string_app_assoc.
Qed.

(** ** Rolling back to a checkpoint *)

Lemma index_snoc (a : string) (c : ascii) (t : string) :
  Py.index (a ++ String c t) (Z.of_nat (String.length a)) = Some c.
Proof.
  replace (String.length a) with (String.length a + 0)%nat at 1 by lia.
  now apply index_at_end.
Qed.

Lemma whitespace_ignored (w : string) :
  all_whitespace w = true ->
  all_ignored ARRAY_NEEDS_VALUE w = true
  /\ all_ignored OBJECT_NEEDS_KEY w = true
  /\ all_ignored OBJECT_NEEDS_COLON w = true
  /\ all_ignored OBJECT_NEEDS_VALUE w = true.
Proof.
  induction w as [|c w IH]; intros H; [now repeat split|].
  simpl in H. apply andb_true_iff in H. destruct H as [Hc Hw].
  destruct (IH Hw) as (H1 & H2 & H3 & H4).
  cbn [all_ignored]. rewrite H1, H2, H3, H4.
  apply whitespace_cases in Hc.
  destruct Hc as [->|[->|[->| ->]]]; now repeat split.
Qed.

(** The checkpoint was set at the end of [a]: the output is that of [a]. *)
Lemma rollback_fresh (a t : string) (st st' : State)
    (l ext : list ContextType) (c c' : ContextType) :
  scan a = Some st ->
  context_stack st = (l ++ [c])%list ->
  forallb is_inner l = true ->
  is_literal c = false -> is_literal c' = false ->
  fixed_closer c' = fixed_closer c ->
  respawn_position st = None ->
  scan (a ++ t) = Some st' ->
  respawn_position st' = Some (Z.of_nat (String.length a)) ->
  respawn_stack_length st' = Some (Z.of_nat (length (l ++ [c]))) ->
  context_stack st' = ((l ++ [c']) ++ ext)%list ->
  untruncate_json (a ++ t) = untruncate_json a.
Proof.
  intros Ha El Hl Hc Hc' Hcl Hp Hat Hp' Hn' El'.
  assert (Hinv : scan_inv st).
  { destruct (scan_total a) as (s & E & H). rewrite Ha in E. now injection E as <-. }
  rewrite (output_fixed a st Ha) by (rewrite El; now apply stack_no_literal).
  rewrite (kept_stack_whole st (coherent_none st Hinv Hp)).
  unfold kept_text. rewrite Hp, El.
  rewrite (untruncate_of_scan _ _ Hat).
  assert (Ek : kept_stack st' = (l ++ [c'])%list).
  { rewrite (kept_stack_firstn st' _ Hn') by lia.
    rewrite El', Nat2Z.id. apply firstn_exact. now rewrite !length_app. }
  rewrite complete_fixed by (rewrite Ek; now apply stack_no_literal).
  rewrite Ek. unfold kept_text. rewrite Hp'.
  rewrite slice_to_index by (rewrite string_length_app; lia).
  rewrite substring_app_l. now rewrite !closing_text_snoc, Hcl.
Qed.

(** A checkpoint was pending at the end of [a] and is still: the output is
    that of [a] when every cut of the stack is closed by the same text. *)
Lemma rollback_pending (a t : string) (st st' : State) (p : Z) :
  scan a = Some st ->
  respawn_position st = Some p ->
  scan (a ++ t) = Some st' ->
  respawn_position st' = Some p ->
  respawn_stack_length st' = respawn_stack_length st ->
  forallb (fun c => negb (is_literal c)) (context_stack st) = true ->
  forallb (fun c => negb (is_literal c)) (context_stack st') = true ->
  (forall m, closing_text (firstn m (context_stack st'))
             = closing_text (firstn m (context_stack st))) ->
  untruncate_json (a ++ t) = untruncate_json a.
Proof.
  intros Ha Hp Hat Hp' Hn' Hno Hno' Hcl.
  destruct (scan_upto_shape a (String.length a) (le_n _)) as (s & E & _ & Hsh).
  unfold scan in Ha. rewrite Ha in E. injection E as <-.
  destruct Hsh as (_ & _ & Hcp).
  destruct (Hcp p Hp) as (Hpb & n & Hn & Hnb).
  rewrite (output_fixed a st Ha Hno), (output_fixed (a ++ t) st' Hat Hno').
  rewrite (kept_stack_firstn st n Hn) by lia.
  rewrite (kept_stack_firstn st' n) by (congruence || lia).
  unfold kept_text. rewrite Hp, Hp', Hcl.
  now rewrite slice_to_app by lia.
Qed.

Ltac step_char :=
  unfold loop_body;
  cbn [with_position position context_stack respawn_position
       respawn_stack_length respawn_reason];
  rewrite ?index_snoc, ?last_snoc;
  unfold dont_consume_character;
  unfold with_position, set_respawn, clear_respawn;
  cbn [context_stack position respawn_position respawn_stack_length
       respawn_reason reason_eqb];
  rewrite ?pop_state, ?replace_state; cbn.


Lemma scan_cons (b : string) (c : ascii) (t : string) (st st1 : State)
    (ctx1 : ContextType) :
  scan b = Some st ->
  loop_body (b ++ String c EmptyString) (String.length b) st = Some st1 ->
  Py.last (context_stack st1) = Some ctx1 ->
  all_ignored ctx1 t = true ->
  exists p, scan (b ++ String c t) = Some (with_position p st1).
Proof.
  intros Hb H1 Hctx Hig.
  replace (b ++ String c t) with ((b ++ String c EmptyString) ++ t)
    by (now rewrite string_app_assoc).
  apply (scan_ignored _ t st1 ctx1); trivial.
  now rewrite scan_snoc, Hb.
Qed.

Lemma rfind_below_lt (s : string) (c : ascii) (k : nat) :
  (Py.rfind_below s c k < Z.of_nat k)%Z.
Proof.
  induction k as [|k IH]; [simpl; lia|].
  cbn [Py.rfind_below]. destruct (String.get k s) as [d|]; [|lia].
  destruct (Ascii.eqb d c); lia.
Qed.

Lemma rfind_below_ge (s : string) (c : ascii) (i k : nat) :
  String.get i s = Some c -> (i < k)%nat ->
  (Z.of_nat i <= Py.rfind_below s c k)%Z.
Proof.
  intros Hi. induction k as [|k IH]; intros Hk; [lia|].
  cbn [Py.rfind_below].
  destruct (Nat.eq_dec i k) as [->|Hne].
  - rewrite Hi, Ascii.eqb_refl. lia.
  - assert (Z.of_nat i <= Py.rfind_below s c k)%Z by (apply IH; lia).
    destruct (String.get k s) as [d|]; [|assumption].
    destruct (Ascii.eqb d c); [lia | assumption].
Qed.

(** Fewer than four characters after the u of a unicode escape. *)
Lemma for_each_unicode (json : string) (u : nat) :
  String.get u json = Some "u"%char ->
  forall (n i : nat) (st : State),
    Py.last (context_stack st) = Some STRING_UNICODE ->
    (u < i)%nat -> (i + n <= u + 4)%nat -> (i + n <= String.length json)%nat ->
    exists p, for_each (loop_body json) (seq i n) st = Some (with_position p st).
Proof.
  intros Hu. induction n as [|n IH]; intros i st Hctx Hi Hn Hlen.
  - exists (position st). now destruct st.
  - cbn [seq for_each].
    assert (E : loop_body json i st = Some (with_position (Z.of_nat i) st)).
    { unfold loop_body. cbn [with_position position context_stack].
      destruct (get_in_range json i) as [c Hc]; [lia|].
      rewrite index_in_range, Hc, Hctx by lia.
      rewrite rfind_to_index by lia.
      assert (H1 := rfind_below_lt json "u" i).
      assert (H2 := rfind_below_ge json "u" u i Hu Hi).
      destruct (Z.eqb_spec (Z.of_nat i - Py.rfind_below json "u" i) 4);
        [lia | reflexivity]. }
    rewrite E.
    destruct (IH (S i) (with_position (Z.of_nat i) st)) as [p Ep];
      trivial; try lia.
    exists p. now rewrite Ep.
Qed.

Lemma no_literal_push (l : list ContextType) (c : ContextType) :
  forallb (fun c => negb (is_literal c)) l = true ->
  is_literal c = false ->
  forallb (fun c => negb (is_literal c)) (l ++ [c]) = true.
Proof. intros Hl Hc. rewrite forallb_app, Hl. simpl. now rewrite Hc. Qed.
(** Reading a key and what follows it, up to the value. *)
Lemma key_run (b s w1 w2 : string) (l : list ContextType) (pos : Z)
    (rp rl : option Z) (rr : option RespawnReason) :
  scan b = Some (mkState (l ++ [OBJECT_NEEDS_KEY]) pos rp rl rr) ->
  all_ignored STRING s = true ->
  all_whitespace w1 = true -> all_whitespace w2 = true ->
  let st' := set_respawn COLLECTION_ITEM
               (mkState (l ++ [OBJECT_NEEDS_KEY])
                  (Z.of_nat (String.length b)) rp rl rr) in
  let after stack p :=
    mkState stack p (respawn_position st') (respawn_stack_length st')
      (respawn_reason st') in
  (exists p, scan (b ++ q ++ s)
             = Some (after ((l ++ [OBJECT_NEEDS_COLON]) ++ [STRING])%list p))
  /\ (exists p, scan (b ++ q ++ s ++ q ++ w1)
                = Some (after (l ++ [OBJECT_NEEDS_COLON])%list p))
  /\ (exists p, scan (b ++ q ++ s ++ q ++ w1 ++ ":" ++ w2)
                = Some (after (l ++ [OBJECT_NEEDS_VALUE])%list p)).
Proof.
  intros Hb Hs Hw1 Hw2 st' after.
  destruct (whitespace_ignored w1 Hw1) as (_ & _ & Hc1 & _).
  destruct (whitespace_ignored w2 Hw2) as (_ & _ & _ & Hv2).
  (* the opening quote and the key *)
  assert (H1 : exists p, scan (b ++ q ++ s)
                         = Some (after ((l ++ [OBJECT_NEEDS_COLON]) ++ [STRING])%list p)).
  { destruct (scan_cons b DQ s _ (after ((l ++ [OBJECT_NEEDS_COLON]) ++ [STRING])%list
                                    (Z.of_nat (String.length b))) STRING Hb)
      as [p E]; trivial.
    - subst st' after. destruct rp; step_char; reflexivity.
    - apply last_snoc.
    - exists p. exact E. }
  destruct H1 as [p1 E1]. split; [eauto|].
  (* the closing quote and the text before the colon *)
  assert (H2 : exists p, scan ((b ++ q ++ s) ++ q ++ w1)
                         = Some (after (l ++ [OBJECT_NEEDS_COLON])%list p)).
  { destruct (scan_cons _ DQ w1 _ (after (l ++ [OBJECT_NEEDS_COLON])%list
                                    (Z.of_nat (String.length (b ++ q ++ s))))
                OBJECT_NEEDS_COLON E1)
      as [p E]; trivial.
    - subst st' after. step_char. reflexivity.
    - apply last_snoc.
    - exists p. exact E. }
  destruct H2 as [p2 E2]. rewrite !string_app_assoc in E2. split; [eauto|].
  (* the colon and the text before the value *)
  replace (b ++ q ++ s ++ q ++ w1 ++ ":" ++ w2)
    with ((b ++ q ++ s ++ q ++ w1) ++ ":" ++ w2)
    by (now rewrite !string_app_assoc).
  destruct (scan_cons _ ":" w2 _ (after (l ++ [OBJECT_NEEDS_VALUE])%list
                                    (Z.of_nat (String.length (b ++ q ++ s ++ q ++ w1))))
              OBJECT_NEEDS_VALUE E2)
    as [p E]; trivial.
  - subst st' after. step_char. reflexivity.
  - apply last_snoc.
  - exists p. exact E.
Qed.

(** A key without its value after the text [a]: the checkpoint set at the
    end of [a] is still pending and the output is that of [a]. *)
Lemma key_rollback (a pre s w1 w2 : string) (st : State)
    (l : list ContextType) (c : ContextType) (pos : Z) (rp rl : option Z)
    (rr : option RespawnReason) :
  scan a = Some st ->
  context_stack st = (l ++ [c])%list ->
  forallb is_inner l = true ->
  c = OBJECT_NEEDS_KEY \/ c = OBJECT_NEEDS_COMMA ->
  respawn_position st = None ->
  scan (a ++ pre) = Some (mkState (l ++ [OBJECT_NEEDS_KEY]) pos rp rl rr) ->
  (let st' := set_respawn COLLECTION_ITEM
                (mkState (l ++ [OBJECT_NEEDS_KEY])
                   (Z.of_nat (String.length (a ++ pre))) rp rl rr) in
   respawn_position st' = Some (Z.of_nat (String.length a))
   /\ respawn_stack_length st' = Some (Z.of_nat (length (l ++ [c])))) ->
  all_ignored STRING s = true ->
  all_whitespace w1 = true -> all_whitespace w2 = true ->
  untruncate_json (a ++ pre ++ q ++ s) = untruncate_json a
  /\ untruncate_json (a ++ pre ++ q ++ s ++ q ++ w1) = untruncate_json a
  /\ untruncate_json (a ++ pre ++ q ++ s ++ q ++ w1 ++ ":" ++ w2)
     = untruncate_json a.
Proof.
  intros Ha El Hl Hc Hp Hb [Hp' Hn'] Hs Hw1 Hw2.
  destruct (key_run (a ++ pre) s w1 w2 l pos rp rl rr Hb Hs Hw1 Hw2)
    as ((p1 & E1) & (p2 & E2) & (p3 & E3)).
  rewrite !string_app_assoc in E1, E2, E3.
  assert (Hlit : is_literal c = false
                 /\ fixed_closer OBJECT_NEEDS_COLON = fixed_closer c
                 /\ fixed_closer OBJECT_NEEDS_VALUE = fixed_closer c)
    by (destruct Hc as [-> | ->]; now repeat split).
  destruct Hlit as (Hlit & Hc1 & Hc2).
  split; [|split].
  - apply (rollback_fresh a _ st _ l [STRING] c OBJECT_NEEDS_COLON Ha El Hl
             Hlit eq_refl Hc1 Hp E1 Hp' Hn').
    reflexivity.
  - apply (rollback_fresh a _ st _ l [] c OBJECT_NEEDS_COLON Ha El Hl
             Hlit eq_refl Hc1 Hp E2 Hp' Hn').
    cbn. now rewrite app_nil_r.
  - apply (rollback_fresh a _ st _ l [] c OBJECT_NEEDS_VALUE Ha El Hl
             Hlit eq_refl Hc2 Hp E3 Hp' Hn').
    cbn. now rewrite app_nil_r.
Qed.

(** ** Escapes *)

Lemma loop_body_escape (json : string) (k : nat) (st : State) :
  scan_inv st -> escape_inv st -> (k < String.length json)%nat ->
  exists st', loop_body json k st = Some st' /\ escape_inv st'.
Proof.
  intros [Hok _] Hesc Hk.
  destruct st as [cs pos rp rl rr].
  unfold escape_inv in Hesc. cbn [context_stack respawn_reason] in *.
  destruct (stack_ok_last cs Hok) as [ctx Hctx].
  assert (Hcs : exists l, cs = (l ++ [ctx])%list).
  { destruct cs as [|x cs] using rev_ind; [discriminate|].
    rewrite last_snoc in Hctx. injection Hctx as ->. eauto. }
  destruct Hcs as [l ->]. clear Hctx. rewrite last_snoc in Hesc.
  destruct (get_in_range json k Hk) as [char Hchar].
  unfold loop_body.
  cbn [with_position position context_stack respawn_position
       respawn_stack_length respawn_reason].
  rewrite (index_in_range json k Hk), Hchar, last_snoc.
  unfold escape_inv.
  destruct ctx; destruct rr as [[]|];
    try (destruct (Hesc eq_refl) as [H|H]; discriminate H);
    clear Hesc;
    unfold dont_consume_character;
    unfold start_any, with_position, set_respawn, clear_respawn, push,
      with_stack;
    cbn [context_stack position respawn_position respawn_stack_length
         respawn_reason];
    destruct rp as [p|];
    cbn [reason_eqb];
    rewrite ?pop_state, ?replace_state;
    split_ifs;
    rewrite ?pop_state, ?replace_state;
    unfold push, with_stack;
    cbn [context_stack position respawn_position respawn_stack_length
         respawn_reason];
    (eexists; split; [reflexivity|]);
    cbn [context_stack respawn_reason];
    intros H; try discriminate H; rewrite ?last_snoc; auto.
Qed.

Lemma scan_upto_escape (json : string) (k : nat) :
  (k <= String.length json)%nat ->
  exists st, scan_upto json k = Some st /\ escape_inv st.
Proof.
  induction k as [|k IH]; intros Hk.
  - exists initial_state. split; [reflexivity | discriminate].
  - destruct IH as (st & E & Hesc); [lia|].
    destruct (scan_upto_inv json k) as (st0 & E0 & Hinv); [lia|].
    rewrite E in E0. injection E0 as <-.
    destruct (loop_body_escape json k st Hinv Hesc) as (st1 & E1 & H1); [lia|].
    exists st1. now rewrite scan_upto_S, E.
Qed.

Lemma escape_pair (json : string) (i : nat) (d : ascii) (st : State) :
  Py.index json (Z.of_nat i) = Some BACKSLASH ->
  Py.index json (Z.of_nat (S i)) = Some d ->
  Ascii.eqb d "u" = false ->
  Py.last (context_stack st) = Some STRING ->
  checkpoint_coherent st ->
  respawn_reason st <> Some STRING_ESCAPE ->
  exists st1, loop_body json i st = Some st1
              /\ loop_body json (S i) st1 = Some (with_position (Z.of_nat (S i)) st).
Proof.
  intros Hb Hd Hu Hctx Hco Hre.
  assert (Hcs : exists l, context_stack st = (l ++ [STRING])%list).
  { destruct (context_stack st) as [|x cs] using rev_ind; [discriminate|].
    rewrite last_snoc in Hctx. injection Hctx as ->. eauto. }
  destruct Hcs as [l El].
  destruct st as [cs pos rp rl rr].
  cbn [context_stack respawn_reason] in *. subst cs.
  assert (Hcases : (rp = None /\ rl = None /\ rr = None)
                   \/ (exists p, rp = Some p /\ rr = Some COLLECTION_ITEM)).
  { destruct Hco as [(Hp & Hl & Hr)|(p & n & r & Hp & Hl & Hr)];
      cbn [respawn_position respawn_stack_length respawn_reason] in *; subst.
    - now left.
    - right. exists p. destruct r; [congruence | now split]. }
  unfold loop_body at 1.
  cbn [with_position position context_stack]. rewrite Hb, last_snoc.
  cbn [Ascii.eqb Bool.eqb DQ BACKSLASH andb].
  eexists; split; [reflexivity|].
  unfold loop_body.
  cbn [with_position position context_stack push with_stack].
  rewrite stack_set_respawn. cbn [context_stack].
  rewrite Hd, last_snoc, Hu.
  destruct Hcases as [(-> & -> & ->)|(p & -> & ->)];
    unfold push, with_stack, with_position, set_respawn, clear_respawn;
    cbn [context_stack position respawn_position respawn_stack_length
         respawn_reason reason_eqb];
    now rewrite pop_state.
Qed.

Lemma for_each_string_content (json : string) (n : nat) :
  forall (t : string) (i : nat) (st : State),
    (String.length t <= n)%nat ->
    Py.last (context_stack st) = Some STRING ->
    checkpoint_coherent st ->
    respawn_reason st <> Some STRING_ESCAPE ->
    (forall j c, String.get j t = Some c ->
                 Py.index json (Z.of_nat (i + j)) = Some c) ->
    string_content t = true ->
    exists p, for_each (loop_body json) (seq i (String.length t)) st
              = Some (with_position p st).
Proof.
  induction n as [|n IH]; intros t i st Hn Hctx Hco Hre Hget Hsc.
  - destruct t; [|simpl in Hn; lia]. exists (position st). now destruct st.
  - destruct t as [|c t]; [exists (position st); now destruct st|].
    cbn [string_content] in Hsc.
    destruct (Ascii.eqb c DQ) eqn:Eq; [discriminate|].
    destruct (Ascii.eqb c BACKSLASH) eqn:Eb.
    + destruct t as [|d t]; [discriminate|].
      apply andb_true_iff in Hsc. destruct Hsc as [Hu Hsc].
      apply negb_true_iff in Hu. apply Ascii.eqb_eq in Eb. subst c.
      destruct (escape_pair json i d st) as (st1 & E1 & E2); trivial.
      * replace i with (i + 0)%nat at 1 by lia. now apply Hget.
      * replace (S i) with (i + 1)%nat by lia. now apply Hget.
      * cbn [String.length seq for_each]. rewrite E1, E2.
        destruct (IH t (S (S i)) (with_position (Z.of_nat (S i)) st))
          as [p Ep]; trivial.
        -- simpl in Hn. lia.
        -- intros j c Hj. replace (S (S i) + j)%nat with (i + S (S j))%nat by lia.
           now apply Hget.
        -- exists p. now rewrite Ep.
    + cbn [String.length seq for_each].
      rewrite (loop_body_ignored json i c st STRING); trivial.
      * destruct (IH t (S i) (with_position (Z.of_nat i) st)) as [p Ep]; trivial.
        -- simpl in Hn. lia.
        -- intros j d Hj. replace (S i + j)%nat with (i + S j)%nat by lia.
           now apply Hget.
        -- exists p. now rewrite Ep.
      * replace i with (i + 0)%nat at 1 by lia. now apply Hget.
      * simpl. now rewrite Eq, Eb.
Qed.

Lemma scan_string_content (a t : string) (st : State) :
  scan a = Some st ->
  Py.last (context_stack st) = Some STRING ->
  string_content t = true ->
  exists p, scan (a ++ t) = Some (with_position p st).
Proof.
  intros Ha Hctx Hsc. rewrite scan_app, Ha.
  destruct (scan_upto_inv a (String.length a) (le_n _)) as (s1 & E1 & _ & Hco).
  destruct (scan_upto_escape a (String.length a) (le_n _)) as (s2 & E2 & Hesc).
  unfold scan in Ha. rewrite Ha in E1, E2.
  injection E1 as <-. injection E2 as <-.
  apply (for_each_string_content (a ++ t) (String.length t)); trivial.
  - intros H. destruct (Hesc H) as [H'|H']; rewrite Hctx in H'; discriminate.
  - intros j c Hj. now apply index_at_end.
Qed.

(** An escape cut short: the output is that of the text before the
    backslash. *)
Lemma incomplete_escape (a h : string) (st : State) :
  scan a = Some st ->
  Py.last (context_stack st) = Some STRING ->
  (String.length h <= 3)%nat ->
  untruncate_json (a ++ "\") = untruncate_json a
  /\ untruncate_json (a ++ "\u" ++ h) = untruncate_json a.
Proof.
  intros Ha Hctx Hh.
  destruct (scan_shape a st STRING Ha Hctx) as (l & El & Hl & Hinv & Hsh).
  destruct st as [cs pos rp rl rr]. cbn [context_stack] in El. subst cs.
  assert (Hno : forallb (fun c => negb (is_literal c)) (l ++ [STRING]) = true)
    by now apply stack_no_literal.
  (* the backslash *)
  assert (H1 : exists st1,
            scan (a ++ "\") = Some st1
            /\ context_stack st1 = ((l ++ [STRING]) ++ [STRING_ESCAPED])%list
            /\ match rp with
               | None =>
                   respawn_position st1 = Some (Z.of_nat (String.length a))
                   /\ respawn_stack_length st1
                      = Some (Z.of_nat (length (l ++ [STRING])))
               | Some _ =>
                   respawn_position st1 = rp /\ respawn_stack_length st1 = rl
               end).
  { rewrite scan_snoc, Ha. step_char.
    destruct rp; cbn; (eexists; split; [reflexivity|]); cbn; auto. }
  destruct H1 as (st1 & E1 & El1 & Hr1).
  (* the u *)
  assert (H2 : exists st2,
            scan ((a ++ "\") ++ "u") = Some st2
            /\ context_stack st2
               = (((l ++ [STRING]) ++ [STRING_ESCAPED]) ++ [STRING_UNICODE])%list
            /\ respawn_position st2 = respawn_position st1
            /\ respawn_stack_length st2 = respawn_stack_length st1).
  { rewrite scan_snoc, E1. destruct st1 as [cs1 pos1 rp1 rl1 rr1].
    cbn [context_stack] in El1. subst cs1. step_char.
    eexists; split; [reflexivity|]. cbn. auto. }
  destruct H2 as (st2 & E2 & El2 & Hp2 & Hn2).
  (* at most three characters more *)
  assert (H3 : exists p, scan (((a ++ "\") ++ "u") ++ h) = Some (with_position p st2)).
  { rewrite scan_app, E2.
    apply (for_each_unicode _ (String.length a + 1)).
    - rewrite !string_app_assoc. now rewrite get_app_r.
    - rewrite El2. apply last_snoc.
    - rewrite !string_length_app. simpl. lia.
    - rewrite !string_length_app. simpl. lia.
    - rewrite !string_length_app. simpl. lia. }
  destruct H3 as (p3 & E3).
  rewrite !string_app_assoc in E3. cbn [append] in E3.
  destruct rp as [p0|]; destruct Hr1 as [Hr1 Hr1'].
  - split.
    + apply (rollback_pending a _ _ st1 p0 Ha eq_refl E1); cbn; trivial.
      * rewrite El1. now apply no_literal_push.
      * intros m. rewrite El1. now apply closing_firstn_push.
    + apply (rollback_pending a _ _ (with_position p3 st2) p0 Ha eq_refl E3);
        cbn; try congruence.
      * rewrite El2. now do 2 (apply no_literal_push; [|reflexivity]).
      * intros m. rewrite El2.
        now do 2 (rewrite closing_firstn_push by reflexivity).
  - split.
    + apply (rollback_fresh a _ _ st1 l [STRING_ESCAPED] STRING STRING Ha eq_refl);
        cbn; trivial.
    + apply (rollback_fresh a _ _ (with_position p3 st2) l
               [STRING_ESCAPED; STRING_UNICODE] STRING STRING Ha eq_refl);
        cbn; trivial; try congruence.
      rewrite El2. now rewrite <- !app_assoc.
Qed.


(** ** A number at the end of the text *)

Lemma digit_cases (c : ascii) :
  Json.digit c = true ->
  c = "0"%char \/ c = "1"%char \/ c = "2"%char \/ c = "3"%char \/ c = "4"%char
  \/ c = "5"%char \/ c = "6"%char \/ c = "7"%char \/ c = "8"%char
  \/ c = "9"%char.
Proof.
  destruct c as [[] [] [] [] [] [] [] []]; intros H;
    try discriminate H; tauto.
Qed.

Lemma number_char_cases (c : ascii) :
  number_char c = true ->
  (c = "0"%char \/ c = "1"%char \/ c = "2"%char \/ c = "3"%char \/ c = "4"%char
   \/ c = "5"%char \/ c = "6"%char \/ c = "7"%char \/ c = "8"%char
   \/ c = "9"%char)
  \/ c = "-"%char \/ c = "+"%char \/ c = "."%char \/ c = "e"%char
  \/ c = "E"%char.
Proof.
  unfold number_char. rewrite !orb_true_iff, !Ascii.eqb_eq.
  intros [[[[[H|H]|H]|H]|H]|H]; auto 10. left. now apply digit_cases.
Qed.

Ltac number_chars H :=
  apply number_char_cases in H;
  destruct H as [[H|[H|[H|[H|[H|[H|[H|[H|[H|H]]]]]]]]]|[H|[H|[H|[H|H]]]]];
  subst.

(** One character inside a number. *)
Lemma number_step (json : string) (i : nat) (c : ascii) (st : State)
    (nf : Frame) (B vs' : list Frame) :
  num_sim st nf B ->
  Py.index json (Z.of_nat i) = Some c ->
  number_char c = true ->
  Json.step true (nf :: B) c = Some vs' ->
  exists st' nf',
    vs' = nf' :: B /\ loop_body json i st = Some st' /\ num_sim st' nf' B.
Proof.
  intros (Hnf & HB & Hcs & Hp & Hl & Hr) Hc Hnc Hstep.
  destruct st as [cs pos rp rl rr].
  cbn [context_stack respawn_position respawn_stack_length respawn_reason] in *.
  subst cs rp rl rr.
  unfold loop_body.
  cbn [with_position position context_stack]. rewrite Hc.
  cbn [map rev context_of]. rewrite last_snoc.
  number_chars Hnc;
    destruct nf; try discriminate Hnf;
    cbn in Hstep;
    try (inversion HB; subst; discriminate Hstep);
    injection Hstep as <-;
    unfold dont_consume_character, with_position;
    cbn [context_stack position respawn_position respawn_stack_length
         respawn_reason];
    cbn [Ascii.eqb Bool.eqb andb orb negb];
    rewrite ?replace_state;
    (eexists; eexists; split; [reflexivity|]; split; [cbn; reflexivity|]);
    repeat split; trivial.
Qed.

Lemma for_each_number (json : string) (t : string) :
  forall (i : nat) (st : State) (nf : Frame) (B vs' : list Frame),
    num_sim st nf B ->
    (forall j c, String.get j t = Some c ->
                 Py.index json (Z.of_nat (i + j)) = Some c) ->
    number_text t = true ->
    Json.run true (nf :: B) t = Some vs' ->
    exists st' nf',
      vs' = nf' :: B
      /\ for_each (loop_body json) (seq i (String.length t)) st = Some st'
      /\ num_sim st' nf' B.
Proof.
  induction t as [|c t IH]; intros i st nf B vs' Hsim Hget Hnt Hrun.
  - injection Hrun as <-. exists st, nf.
    split; [reflexivity|]. split; [reflexivity | exact Hsim].
  - cbn [number_text] in Hnt. apply andb_true_iff in Hnt.
    destruct Hnt as [Hc Ht].
    cbn [Json.run] in Hrun.
    destruct (Json.step true (nf :: B) c) as [v1|] eqn:Hstep; [|discriminate].
    destruct (number_step json i c st nf B v1 Hsim) as (st1 & nf1 & -> & E1 & Hsim1);
      trivial.
    { replace i with (i + 0)%nat at 1 by lia. now apply Hget. }
    destruct (IH (S i) st1 nf1 B vs' Hsim1) as (st' & nf' & -> & E' & Hsim');
      trivial.
    { intros j d Hj. replace (S i + j)%nat with (i + S j)%nat by lia.
      now apply Hget. }
    exists st', nf'. split; [reflexivity|]. split; [|exact Hsim'].
    cbn [String.length seq for_each]. now rewrite E1.
Qed.

(** The first character of a number, where the recognizer of strings, arrays
    and objects stops. *)
Lemma number_start (json0 json : string) (i : nat) (c : ascii) (st : State)
    (vs vs1 : list Frame) :
  sim json0 vs st ->
  Py.index json (Z.of_nat i) = Some c ->
  number_char c = true ->
  Json.step true vs c = Some vs1 ->
  Json.step false vs c = None ->
  exists st1 nf B,
    vs1 = nf :: B /\ loop_body json i st = Some st1 /\ num_sim st1 nf B.
Proof.
  intros (Hcs & pend & Hsh & Hp) Hc Hnc Hstep Hno.
  destruct st as [cs pos rp rl rr]. cbn [context_stack] in Hcs. subst cs.
  unfold loop_body.
  cbn [with_position position context_stack respawn_position
       respawn_stack_length respawn_reason].
  rewrite Hc.
  inversion Hsh; subst; clear Hsh;
    try match type of Hstep with
        | Json.step true ?v c = _ =>
            is_var v;
            match goal with H : base v |- _ => inversion H; subst; clear H end
        end;
    cbn [checkpoint_is respawn_position respawn_stack_length respawn_reason] in Hp;
    cbn [map rev context_of]; rewrite ?last_snoc.
  all: try (destruct Hp as (-> & -> & ->)).
  all: try (destruct Hp as (p & -> & -> & -> & Hp)).
  all: number_chars Hnc; cbn in Hstep, Hno;
    try discriminate Hstep; try discriminate Hno.
  all: injection Hstep as <-.
  all: unfold with_position, set_respawn, clear_respawn;
    cbn [context_stack position respawn_position respawn_stack_length
         respawn_reason reason_eqb];
    rewrite ?pop_state, ?replace_state; cbn.
  all: do 3 eexists; split; [reflexivity|]; split; [reflexivity|].
  all: repeat split; eauto using base_done, base_array, base_object.
Qed.

(** The scan of strings, arrays and objects, then of a number. *)
Lemma scan_structural (s : string) (vs : list Frame) :
  Json.run false [FValue] s = Some vs ->
  exists st, scan s = Some st /\ sim s vs st
             /\ (vs = [FValue] -> all_whitespace s = true).
Proof.
  intros Hrun.
  destruct (scan_upto_sim s vs Hrun (String.length s) (le_n _))
    as (vs0 & st & Hvs & Hst & Hsim & Hblank).
  rewrite substring_all in Hvs, Hblank. rewrite Hrun in Hvs.
  injection Hvs as <-. exists st. auto.
Qed.

Lemma number_scan (s t : string) (c : ascii) (vs vs' : list Frame) :
  Json.run false [FValue] s = Some vs ->
  number_text (String c t) = true ->
  Json.run true vs (String c t) = Some vs' ->
  Json.step false vs c = None ->
  exists st nf B,
    scan (s ++ String c t) = Some st /\ vs' = nf :: B /\ num_sim st nf B.
Proof.
  intros Hs Hnt Hrun Hno.
  destruct (scan_structural s vs Hs) as (st0 & E0 & Hsim & _).
  cbn [number_text] in Hnt. apply andb_true_iff in Hnt. destruct Hnt as [Hc Ht].
  cbn [Json.run] in Hrun.
  destruct (Json.step true vs c) as [v1|] eqn:Hstep; [|discriminate].
  destruct (number_start s (s ++ String c t) (String.length s) c st0 vs v1 Hsim)
    as (st1 & nf & B & -> & E1 & Hsim1); trivial.
  { apply index_snoc. }
  destruct (for_each_number (s ++ String c t) t (S (String.length s)) st1 nf B vs'
              Hsim1) as (st' & nf' & -> & E' & Hsim'); trivial.
  { intros j d Hj.
    replace (S (String.length s) + j)%nat with (String.length s + S j)%nat by lia.
    now apply index_at_end. }
  exists st', nf', B. split; [|now split].
  rewrite scan_app, E0. cbn [String.length seq for_each]. now rewrite E1.
Qed.

(** Closing a number and what is below it. *)
Lemma close_base_number (json : string) (B : list Frame) (nf : Frame) :
  base B -> is_complete_number nf = true ->
  forall result, exists frags,
    close_all json (map context_of B) result = Some (result ++ frags)%list
    /\ exists s, Json.run true (nf :: B) (String.concat EmptyString frags) = Some s
                 /\ Json.accepting s = true.
Proof.
  intros HB Hnf result. inversion HB as [|B0 HB0|B0 HB0]; subst.
  - exists []. split; [simpl; now rewrite app_nil_r|].
    exists [nf; FDone]. split; [reflexivity|]. now destruct nf.
  - destruct (close_base json B0 HB0 (result ++ ["]"])%list) as (frags & E & Hr).
    exists ("]" :: frags)%list. split.
    + simpl. rewrite E. now rewrite <- app_assoc.
    + exists [FDone]. split; [|reflexivity].
      rewrite join_cons. cbn [append Json.run].
      destruct nf; try discriminate Hnf; cbn; apply Hr.
  - destruct (close_base json B0 HB0 (result ++ ["}"])%list) as (frags & E & Hr).
    exists ("}" :: frags)%list. split.
    + simpl. rewrite E. now rewrite <- app_assoc.
    + exists [FDone]. split; [|reflexivity].
      rewrite join_cons. cbn [append Json.run].
      destruct nf; try discriminate Hnf; cbn; apply Hr.
Qed.

Lemma number_close (x : string) (st : State) (nf : Frame) (B : list Frame) :
  scan x = Some st ->
  num_sim st nf B ->
  Json.run true [FValue] x = Some (nf :: B) ->
  exists closers,
    let d := if is_complete_number nf then EmptyString else "0" in
    untruncate_json x = Some (x ++ d ++ closers)
    /\ Json.is_json (x ++ d ++ closers) = true.
Proof.
  intros Hx (Hnf & HB & Hcs & Hp & Hl & Hr) Hrun.
  rewrite (untruncate_of_scan x st Hx).
  unfold complete, kept_stack, kept_text. rewrite Hp, Hl, Hcs, rev_involutive.
  cbn [map].
  assert (Hgen : forall nf' d,
            is_complete_number nf' = true ->
            close_all x (context_of nf :: map context_of B) [x]
            = close_all x (map context_of B) ([x] ++ d)%list ->
            Json.run true (nf :: B) (String.concat EmptyString d) = Some (nf' :: B) ->
            exists closers,
              (r <- close_all x (context_of nf :: map context_of B) [x] ;;
               Some (String.concat EmptyString r))
              = Some (x ++ String.concat EmptyString d ++ closers)
              /\ Json.is_json (x ++ String.concat EmptyString d ++ closers) = true).
  { intros nf' d Hc Ecl Hd.
    destruct (close_base_number x B nf' HB Hc ([x] ++ d)%list)
      as (frags & E & s & Hs & Hacc).
    exists (String.concat EmptyString frags). rewrite Ecl, E. split.
    - cbn [app]. rewrite join_cons. f_equal. f_equal.
      clear. induction d as [|y d IH]; [reflexivity|].
      cbn [app]. rewrite !join_cons, IH. now rewrite string_app_assoc.
    - unfold Json.is_json, Json.accepts.
      now rewrite run_app, Hrun, run_app, Hd, Hs. }
  destruct nf; try discriminate Hnf; cbv zeta; cbn [is_complete_number].
  all: first
    [ eapply (Hgen _ []); [| reflexivity | reflexivity]; reflexivity
    | eapply (Hgen _ ["0"]); [| reflexivity | reflexivity]; reflexivity ].
Qed.

(** ** The beginning of a JSON text that ends in a number or in an escape *)

Lemma blank_run (s : string) :
  all_whitespace s = true -> Json.run false [FValue] s = Some [FValue].
Proof.
  induction s as [|c s IH]; intros H; [reflexivity|].
  simpl in H. apply andb_true_iff in H. destruct H as [Hc Hs].
  cbn [Json.run]. unfold Json.step. rewrite ws_is_whitespace, Hc. now apply IH.
Qed.

(** Where the recognizer of strings, arrays and objects takes a character of
    a number, it is inside a string. *)
Lemma in_string (vs v1 : list Frame) (c : ascii) pend :
  shape vs pend ->
  number_char c = true ->
  Json.step false vs c = Some v1 ->
  exists R, vs = FString :: R.
Proof.
  intros Hsh Hc Hstep.
  inversion Hsh; subst; clear Hsh;
    try match goal with
        | H : base ?v |- _ => is_var v; inversion H; subst; clear H
        end;
    try (eexists; reflexivity).
  all: number_chars Hc; cbn in Hstep; discriminate Hstep.
Qed.

Lemma string_number_text (b : bool) (R : list Frame) (t : string) :
  number_text t = true ->
  Json.run b (FString :: R) t = Some (FString :: R).
Proof.
  induction t as [|c t IH]; intros H; [reflexivity|].
  cbn [number_text] in H. apply andb_true_iff in H. destruct H as [Hc Ht].
  cbn [Json.run].
  assert (E : Json.step b (FString :: R) c = Some (FString :: R))
    by (number_chars Hc; reflexivity).
  rewrite E. now apply IH.
Qed.

Lemma sim_top (json : string) (vs : list Frame) (st : State) (f : Frame)
    (R : list Frame) :
  sim json vs st -> vs = f :: R ->
  Py.last (context_stack st) = Some (context_of f).
Proof.
  intros (Hcs & _) ->. rewrite Hcs. cbn [map rev]. apply last_snoc.
Qed.

Lemma shape_not_number (vs : list Frame) pend (f : Frame) (R : list Frame) :
  shape vs pend -> vs = f :: R ->
  context_of f <> NUMBER_NEEDS_DIGIT /\ context_of f <> NUMBER_NEEDS_EXPONENT.
Proof.
  intros Hsh E. subst vs.
  inversion Hsh; subst; clear Hsh;
    try match goal with
        | H : base (_ :: _) |- _ => inversion H; subst; clear H
        end;
    split; discriminate.
Qed.

(** What the scan and the output are at the end of such a text: either the
    text is of strings, arrays and objects, or it ends in a number. *)
Lemma prefix_cases (s tail rest : string) :
  structural_prefix s = true ->
  number_text tail = true ->
  Json.is_json (s ++ tail ++ rest) = true ->
  (exists vs st pend,
      Json.run false [FValue] (s ++ tail) = Some vs
      /\ scan (s ++ tail) = Some st /\ sim (s ++ tail) vs st /\ shape vs pend)
  \/ (exists st nf B,
        scan (s ++ tail) = Some st /\ num_sim st nf B
        /\ Json.run true [FValue] (s ++ tail) = Some (nf :: B)).
Proof.
  intros Hs Hnt Hj. unfold structural_prefix in Hs.
  destruct (Json.run false [FValue] s) as [vs|] eqn:Hrun; [|discriminate].
  clear Hs.
  unfold Json.is_json, Json.accepts in Hj.
  rewrite run_app, (run_full _ _ _ Hrun), run_app in Hj.
  destruct (Json.run true vs tail) as [vs'|] eqn:Htail; [|discriminate].
  clear Hj.
  assert (Hstruct : forall v, Json.run false [FValue] (s ++ tail) = Some v ->
            exists vs st pend,
              Json.run false [FValue] (s ++ tail) = Some vs
              /\ scan (s ++ tail) = Some st /\ sim (s ++ tail) vs st
              /\ shape vs pend).
  { intros v Hv. destruct (scan_structural _ v Hv) as (st & E & Hsim & _).
    destruct Hsim as (Hcs & pend & Hsh & Hp).
    exists v, st, pend. repeat split; trivial. exists pend. now split. }
  destruct tail as [|c t].
  - left. apply (Hstruct vs). now rewrite string_app_empty_r.
  - destruct (Json.step false vs c) as [v1|] eqn:Hstep.
    + left.
      destruct (scan_structural s vs Hrun) as (st0 & _ & (_ & pend & Hsh & _) & _).
      cbn [number_text] in Hnt. apply andb_true_iff in Hnt.
      destruct (in_string vs v1 c pend Hsh (proj1 Hnt) Hstep)
        as [R ->].
      apply (Hstruct (FString :: R)). rewrite run_app, Hrun.
      apply string_number_text. cbn [number_text]. now apply andb_true_iff.
    + right.
      destruct (number_scan s t c vs vs' Hrun Hnt Htail Hstep)
        as (st & nf & B & E & -> & Hsim).
      exists st, nf, B. repeat split; trivial; try apply Hsim.
      now rewrite run_app, (run_full _ _ _ Hrun).
Qed.

(** ** The recognizer on some texts *)

Example is_json_accepts :
  forallb Json.is_json
    [ "{" ++ q ++ "a" ++ q ++ ":1}"; "[1,2]"; " [ ] "; "[-0.5e+3,true,null]";
      q ++ "a\n\u00e9" ++ q; "12"; "false";
      "{" ++ q ++ "a" ++ q ++ " : [ {}, " ++ q ++ q ++ " ] }" ]
  = true.
Proof. reflexivity. Qed.

Example is_json_rejects :
  existsb Json.is_json
    [ EmptyString; "x"; "[1,2,]"; "[1]]"; "{" ++ q ++ "a" ++ q ++ ":1}}"; "[01]";
      "[1.]"; "-"; "tru"; "[te]"; q ++ "a"; q ++ "\x" ++ q; q ++ "\u12" ++ q;
      "{" ++ q ++ "a" ++ q ++ "}"; "{,}"; "[] []" ]
  = false.
Proof. reflexivity. Qed.

(** ** The claims *)

(** C1 as the claim states it fails: the empty text and a text that starts
    no value are returned as they are, and neither is a JSON text. *)
Lemma parseable_counterexample :
  (untruncate_json EmptyString = Some EmptyString
   /\ Json.is_json EmptyString = false)
  /\ (untruncate_json "x" = Some "x" /\ Json.is_json "x" = false).
Proof. repeat split. Qed.

(** C1, amended.  Take an input that holds a character other than white
    space and is the beginning of a JSON text, made of a text [s] of strings
    without unicode escapes, arrays and objects, followed by [tail]: either
    characters of a number (none, or a number under way at the end of the
    input), or, inside a string, a unicode escape cut before its last hex
    digit.  On it [untruncate_json] returns a text that parses as JSON:
    every string, array, object and number opened in it is closed. *)
Theorem json_prefix_repaired (s tail rest : string) :
  structural_prefix s = true ->
  number_text tail = true
  \/ (ends_in_string s = true
      /\ exists h, tail = "\u" ++ h /\ (String.length h <= 3)%nat) ->
  Json.is_json (s ++ tail ++ rest) = true ->
  all_whitespace (s ++ tail) = false ->
  exists out, untruncate_json (s ++ tail) = Some out /\ Json.is_json out = true.
Proof.
  intros Hs [Hnt|(Hes & h & -> & Hh)] Hj Hnb.
  - destruct (prefix_cases s tail rest Hs Hnt Hj)
      as [(vs & st & pend & Hrun & _)|(st & nf & B & E & Hsim & Hrun)].
    + destruct (viable_output _ vs Hrun Hnb) as (out & E & Hout).
      exists out. split; [exact E | now apply structural_is_json].
    + destruct (number_close _ st nf B E Hsim Hrun) as (closers & E' & Hout).
      eauto.
  - unfold ends_in_string in Hes.
    destruct (Json.run false [FValue] s) as [[|[] R]|] eqn:Hrun;
      try discriminate Hes.
    destruct (scan_structural s _ Hrun) as (st & E & Hsim & _).
    assert (Htop := sim_top s _ st FString R Hsim eq_refl).
    destruct (incomplete_escape s h st E Htop Hh) as [_ ->].
    assert (Hnb' : all_whitespace s = false).
    { destruct (all_whitespace s) eqn:Hw; [|reflexivity].
      rewrite (blank_run s Hw) in Hrun. discriminate. }
    destruct (viable_output s _ Hrun Hnb') as (out & E' & Hout).
    exists out. split; [exact E' | now apply structural_is_json].
Qed.

Lemma json_prefix_repaired_witness :
  (exists out,
      untruncate_json (("{" ++ q ++ "a" ++ q ++ ":[" ++ q ++ "b\n" ++ q ++ ", ")
                       ++ "-12.5e")
      = Some out
      /\ Json.is_json out = true)
  /\ (exists out,
         untruncate_json (("[" ++ q ++ "a") ++ "\u" ++ "12") = Some out
         /\ Json.is_json out = true).
Proof.
  split.
  - apply (json_prefix_repaired
             ("{" ++ q ++ "a" ++ q ++ ":[" ++ q ++ "b\n" ++ q ++ ", ")
             "-12.5e" "3]}");
      [reflexivity | left; reflexivity | reflexivity | reflexivity].
  - apply (json_prefix_repaired ("[" ++ q ++ "a") ("\u" ++ "12")
             ("34" ++ q ++ "]"));
      [reflexivity | right | reflexivity | reflexivity].
    split; [reflexivity|]. exists "12". split; [reflexivity | simpl; lia].
Defined.

(** C2.  The empty text is returned as it is, but the valid document made
    of one object with the member a:1 comes back with a second closing
    brace: the brace that ended the number was not offered to the object. *)
Theorem valid_document_changed :
  untruncate_json EmptyString = Some EmptyString
  /\ untruncate_json ("{" ++ q ++ "a" ++ q ++ ":1}")
     = Some ("{" ++ q ++ "a" ++ q ++ ":1}}").
Proof. split; reflexivity. Qed.

(** C3.  Repairing twice differs from repairing once: [1 becomes [1], and
    [1] becomes [1]]. *)
Theorem not_idempotent :
  untruncate_json "[1" = Some "[1]"
  /\ untruncate_json "[1]" = Some "[1]]".
Proof. split; reflexivity. Qed.

(** C4.  The decrement of [dont_consume_character] is lost: an iteration
    starts by storing the next index of the range in [position], so its
    result does not depend on the value the previous iteration left there,
    and the character that ended a number or a literal is never offered to
    the context below.  On [1] the closing bracket pops NUMBER, leaves the
    cursor at 1, and the array context stays open. *)
Theorem pushback_is_lost :
  (forall json i p st, loop_body json i (with_position p st) = loop_body json i st)
  /\ scan_upto "[1]" 2 = Some (mkState [TOP_LEVEL; ARRAY_NEEDS_COMMA; NUMBER] 1
                                 None None None)
  /\ scan_upto "[1]" 3 = Some (mkState [TOP_LEVEL; ARRAY_NEEDS_COMMA] 1
                                 None None None)
  /\ scan "[1]" = scan_upto "[1]" 3.
Proof. repeat split. Qed.

(** C5.  The literal in the claim's example is completed, but the text tru
    keeps a TRUE context open and nothing is appended: [finish_word] cuts
    the word at its own length minus the index of its first letter. *)
Theorem literal_suffix_wrong :
  untruncate_json ("{" ++ q ++ "a" ++ q ++ ":tru")
  = Some ("{" ++ q ++ "a" ++ q ++ ":true}")
  /\ scan "tru" = Some (mkState [TOP_LEVEL; TRUE] 2 None None None)
  /\ untruncate_json "tru" = Some "tru"
  /\ untruncate_json "[t" = Some "[te]".
Proof. repeat split. Qed.

(** C6 as the claim states it fails: the minus sign is kept, so the output
    for the text ending in a bare minus is not the one the claim gives. *)
Lemma numeric_completion_counterexample :
  untruncate_json ("{" ++ q ++ "x" ++ q ++ ":-")
  <> Some ("{" ++ q ++ "x" ++ q ++ ":0}").
Proof. discriminate. Qed.

(** C6, amended.  The text ending in a bare minus is completed to -0 inside
    its object, the text [1. to [1.0].  Whenever no checkpoint is pending
    and the scan ends in NUMBER_NEEDS_DIGIT or NUMBER_NEEDS_EXPONENT, the
    whole input is kept and the first thing appended is the digit 0.  When
    the input is moreover the beginning of a JSON text, made of a text [s]
    of strings without unicode escapes, arrays and objects followed by the
    characters [tail] of a number, the output is the input, the digit 0 and
    closing text, and it parses as JSON: the number is valid. *)
Theorem numeric_completion :
  untruncate_json ("{" ++ q ++ "x" ++ q ++ ":-")
  = Some ("{" ++ q ++ "x" ++ q ++ ":-0}")
  /\ untruncate_json "[1." = Some "[1.0]"
  /\ (forall json st c,
        scan json = Some st ->
        respawn_position st = None ->
        respawn_stack_length st = None ->
        Py.last (context_stack st) = Some c ->
        c = NUMBER_NEEDS_DIGIT \/ c = NUMBER_NEEDS_EXPONENT ->
        exists rest, untruncate_json json = Some (json ++ "0" ++ rest))
  /\ (forall s tail rest st c,
        structural_prefix s = true ->
        number_text tail = true ->
        Json.is_json (s ++ tail ++ rest) = true ->
        scan (s ++ tail) = Some st ->
        Py.last (context_stack st) = Some c ->
        c = NUMBER_NEEDS_DIGIT \/ c = NUMBER_NEEDS_EXPONENT ->
        exists closers,
          untruncate_json (s ++ tail) = Some ((s ++ tail) ++ "0" ++ closers)
          /\ Json.is_json ((s ++ tail) ++ "0" ++ closers) = true).
Proof.
  split; [reflexivity|]. split; [reflexivity|]. split.
  - intros json st c E Hp Hl Hc Hnum.
    destruct (scan_total json) as (st' & E' & Hs & _).
    rewrite E in E'. injection E' as <-.
    assert (Hne : c <> TOP_LEVEL) by (destruct Hnum; subst; discriminate).
    destruct (stack_ok_pop _ _ Hs Hc Hne) as (l' & _ & _ & El).
    unfold untruncate_json, complete, kept_stack, kept_text.
    rewrite E, Hp, Hl, El, rev_app_distr. simpl rev. simpl app.
    assert (Ec : close_all json (c :: rev l') [json]
                 = close_all json (rev l') [json; "0"])
      by (destruct Hnum; subst; reflexivity).
    rewrite Ec.
    destruct (close_all_spec json (rev l') [json; "0"]) as (frags & -> & _).
    exists (String.concat EmptyString frags).
    simpl app. now rewrite !join_cons.
  - intros s tail rest st c Hs Hnt Hj E Hc Hnum.
    destruct (prefix_cases s tail rest Hs Hnt Hj)
      as [(vs & st' & pend & Hrun & E' & Hsim & Hsh)
         |(st' & nf & B & E' & Hsim & Hrun)];
      rewrite E in E'; injection E' as <-.
    + exfalso.
      assert (Hne : exists f R, vs = f :: R).
      { inversion Hsh; subst; eauto.
        match goal with H : base _ |- _ => inversion H; subst; eauto end. }
      destruct Hne as (f & R & ->).
      rewrite (sim_top _ _ st f R Hsim eq_refl) in Hc. injection Hc as <-.
      destruct (shape_not_number _ pend f R Hsh eq_refl) as [H1 H2].
      destruct Hnum; congruence.
    + destruct (number_close _ st nf B E Hsim Hrun) as (closers & Hout).
      exists closers.
      assert (Hd : is_complete_number nf = false).
      { destruct Hsim as (Hnf & _ & Hcs & _). rewrite Hcs in Hc.
        cbn [map rev] in Hc. rewrite last_snoc in Hc. injection Hc as <-.
        destruct nf; try discriminate Hnf; try reflexivity;
          destruct Hnum; discriminate. }
      rewrite Hd in Hout. exact Hout.
Qed.

Lemma numeric_completion_witness :
  (exists rest, untruncate_json "[1e" = Some ("[1e" ++ "0" ++ rest))
  /\ (exists closers,
         untruncate_json (("[{" ++ q ++ "x" ++ q ++ ":") ++ "-1.5e+")
         = Some ((("[{" ++ q ++ "x" ++ q ++ ":") ++ "-1.5e+") ++ "0" ++ closers)
         /\ Json.is_json
              ((("[{" ++ q ++ "x" ++ q ++ ":") ++ "-1.5e+") ++ "0" ++ closers)
            = true).
Proof.
  split.
  - apply (proj1 (proj2 (proj2 numeric_completion)) "[1e"
             (mkState [TOP_LEVEL; ARRAY_NEEDS_COMMA; NUMBER_NEEDS_EXPONENT] 2
                None None None) NUMBER_NEEDS_EXPONENT);
      try reflexivity.
    right; reflexivity.
  - apply (proj2 (proj2 (proj2 numeric_completion))
             ("[{" ++ q ++ "x" ++ q ++ ":") "-1.5e+" "2}]"
             (mkState [TOP_LEVEL; ARRAY_NEEDS_COMMA; OBJECT_NEEDS_COMMA;
                       NUMBER_NEEDS_DIGIT] 11 None None None)
             NUMBER_NEEDS_DIGIT);
      try reflexivity.
    left; reflexivity.
Defined.

(** C7.  The text [1,2, of the claim comes back as [1,2]: its last comma
    leaves a COLLECTION_ITEM checkpoint at position 4 and the output is cut
    there.  On [1, the comma ends the number: it pops NUMBER and is not
    offered to ARRAY_NEEDS_COMMA (the pushback is lost, see C4), so no
    checkpoint is set and the comma stays in the output [1,] which is not
    a JSON text.  The same happens after a literal and inside an object. *)
Theorem trailing_comma_kept_after_number :
  (exists st, scan "[1,2," = Some st
              /\ respawn_position st = Some 4%Z
              /\ respawn_reason st = Some COLLECTION_ITEM
              /\ kept_text "[1,2," st = "[1,2")
  /\ untruncate_json "[1,2," = Some "[1,2]"
  /\ scan_upto "[1," 2 = Some (mkState [TOP_LEVEL; ARRAY_NEEDS_COMMA; NUMBER] 1
                                 None None None)
  /\ scan "[1," = Some (mkState [TOP_LEVEL; ARRAY_NEEDS_COMMA] 1
                          None None None)
  /\ untruncate_json "[1," = Some "[1,]"
  /\ Json.is_json "[1,]" = false
  /\ untruncate_json "[true," = Some "[true,]"
  /\ untruncate_json ("{" ++ q ++ "a" ++ q ++ ":1,")
     = Some ("{" ++ q ++ "a" ++ q ++ ":1,}").
Proof.
  split; [eexists; split; [reflexivity|]; repeat split|].
  repeat split.
Qed.

(** C8.  At every point of every run the three respawn variables are set
    together or not at all (one checkpoint or none); [set_respawn] on a
    pending checkpoint changes nothing, and [clear_respawn] discards the
    pending checkpoint when its reason is the one supplied and changes
    nothing when it is the other one. *)
Theorem single_pending_checkpoint (json : string) (k : nat) (st : State) :
  (k <= String.length json)%nat ->
  scan_upto json k = Some st ->
  checkpoint_coherent st
  /\ (forall reason, respawn_position st <> None -> set_respawn reason st = st)
  /\ (forall reason pending,
        respawn_reason st = Some pending ->
        (reason = pending ->
         clear_respawn reason st
         = mkState (context_stack st) (position st) None None None)
        /\ (reason <> pending -> clear_respawn reason st = st)
        /\ (respawn_position (clear_respawn reason st) = None
            <-> reason = pending)).
Proof.
  intros Hk E.
  destruct (scan_upto_inv json k Hk) as (st' & E' & _ & Hc).
  rewrite E in E'. injection E' as <-.
  split; [exact Hc|]. split.
  - intros reason Hp. unfold set_respawn.
    destruct (respawn_position st); congruence.
  - intros reason pending Hr.
    assert (Hpos : respawn_position st <> None).
    { destruct Hc as [(_ & _ & Hn)|(p & n & r & Hp & _)]; congruence. }
    unfold clear_respawn. rewrite Hr.
    destruct reason, pending; simpl; repeat split;
      try congruence; try discriminate; try reflexivity; intros; tauto.
Qed.

Lemma single_pending_checkpoint_witness :
  let st := mkState [TOP_LEVEL; ARRAY_NEEDS_VALUE] 3 (Some 3%Z) (Some 2%Z)
              (Some COLLECTION_ITEM) in
  checkpoint_coherent st
  /\ (forall reason, respawn_position st <> None -> set_respawn reason st = st)
  /\ (forall reason pending,
        respawn_reason st = Some pending ->
        (reason = pending ->
         clear_respawn reason st
         = mkState (context_stack st) (position st) None None None)
        /\ (reason <> pending -> clear_respawn reason st = st)
        /\ (respawn_position (clear_respawn reason st) = None
            <-> reason = pending)).
Proof.
  apply (single_pending_checkpoint "[[]," 4%nat); [simpl; lia | reflexivity].
Defined.

(** C9.  [untruncate_json] is total: on every input text the scanning loop
    and the synthesizer run to the end without raising (no index, slice or
    stack operation leaves its bounds) and a string is returned. *)
Theorem untruncate_json_total (json : string) :
  exists out, untruncate_json json = Some out.
Proof.
  unfold untruncate_json.
  destruct (scan_total json) as (st & -> & _).
  destruct (complete_spec json st) as (frags & -> & _). eauto.
Qed.

(** C10.  The output is a prefix of the input (all of it when no checkpoint
    is pending after the scan, else the input cut at the checkpoint's
    position) followed by closing fragments only, each of them a double
    quote, a zero, a closing bracket, a closing brace, or a tail of
    true, false or null. *)
Theorem output_is_prefix_plus_closers (x : string) :
  exists st frags,
    scan x = Some st
    /\ let kept := match respawn_position st with
                   | Some p => Py.slice_to x p
                   | None => x
                   end in
       untruncate_json x = Some (kept ++ String.concat EmptyString frags)
       /\ (exists rest, x = kept ++ rest)
       /\ Forall is_closing_fragment frags.
Proof.
  destruct (scan_total x) as (st & E & _).
  destruct (complete_spec x st) as (frags & Ec & _ & Hf).
  exists st, frags. split; [exact E|]. cbv zeta.
  unfold untruncate_json. rewrite E.
  split; [exact Ec|]. split; [apply kept_text_prefix | exact Hf].
Qed.

(** ** Further properties *)

(** X1.  A complete JSON text made of strings without unicode escapes, arrays
    and objects is returned unchanged. *)
Theorem structural_document_unchanged (document : string) :
  Json.is_structural_json document = true ->
  untruncate_json document = Some document.
Proof. apply structural_fixed. Qed.

Lemma structural_document_unchanged_witness :
  untruncate_json ("{" ++ q ++ "a" ++ q ++ ": [ " ++ q ++ "b" ++ q ++ ", {} ]}")
  = Some ("{" ++ q ++ "a" ++ q ++ ": [ " ++ q ++ "b" ++ q ++ ", {} ]}").
Proof. apply structural_document_unchanged. reflexivity. Defined.

(** X2.  On the beginning of such a text, repairing the repaired text
    changes nothing. *)
Theorem structural_prefix_idempotent (x rest : string) :
  Json.is_structural_json (x ++ rest) = true ->
  all_whitespace x = false ->
  exists out, untruncate_json x = Some out /\ untruncate_json out = Some out.
Proof.
  intros Hacc Hnb.
  destruct (structural_output x rest Hacc Hnb) as (out & E & Hout).
  exists out. split; [exact E | now apply structural_fixed].
Qed.

Lemma structural_prefix_idempotent_witness :
  exists out,
    untruncate_json ("[" ++ q ++ "a\") = Some out
    /\ untruncate_json out = Some out.
Proof.
  apply (structural_prefix_idempotent ("[" ++ q ++ "a\") ("n" ++ q ++ "]"));
    reflexivity.
Defined.

(** ** Further properties of the scan and of the output *)

(** X3.  The scan reads forward only: after the characters of [a], the state
    is that of the scan of [a] alone, whatever text follows. *)
Theorem scan_is_online (a b : string) :
  scan_upto (a ++ b) (String.length a) = scan a.
Proof. apply scan_upto_app. lia. Qed.

(** X4.  At every point of the scan the stack has TOP_LEVEL at the bottom
    and nowhere else, is at most one deeper than the number of characters
    read, and holds below its top only TOP_LEVEL, STRING, STRING_ESCAPED,
    ARRAY_NEEDS_COMMA, OBJECT_NEEDS_COLON and OBJECT_NEEDS_COMMA: a number,
    a literal or a context that waits for a value or a key is always the
    top. *)
Theorem stack_shape (json : string) (k : nat) :
  (k <= String.length json)%nat ->
  exists st rest,
    scan_upto json k = Some st
    /\ context_stack st = TOP_LEVEL :: rest
    /\ ~ In TOP_LEVEL rest
    /\ (length (context_stack st) <= k + 1)%nat
    /\ forallb is_inner (removelast (context_stack st)) = true.
Proof.
  intros Hk.
  destruct (scan_upto_shape json k Hk)
    as (st & E & [(rest & Er & Hr) _] & Hin & Hlen & _).
  exists st, rest. auto.
Qed.

Lemma stack_shape_witness :
  exists st rest,
    scan_upto ("[{" ++ q ++ "a") 3 = Some st
    /\ context_stack st = TOP_LEVEL :: rest
    /\ ~ In TOP_LEVEL rest
    /\ (length (context_stack st) <= 3 + 1)%nat
    /\ forallb is_inner (removelast (context_stack st)) = true.
Proof. apply (stack_shape ("[{" ++ q ++ "a") 3). simpl. lia. Defined.

(** X5.  A checkpoint that is pending when the scan ends lies inside the
    text: its position is that of a character read, so the kept text is the
    input without at least its last character, and the depth recorded with
    it is at least two and at most the position plus one. *)
Theorem checkpoint_in_text (json : string) (st : State) (p : Z) :
  scan json = Some st ->
  respawn_position st = Some p ->
  (0 <= p < Z.of_nat (String.length json))%Z
  /\ kept_text json st = substring 0 (Z.to_nat p) json
  /\ exists n, respawn_stack_length st = Some n /\ (2 <= n <= p + 1)%Z.
Proof.
  intros E Hp.
  destruct (scan_upto_shape json (String.length json) (le_n _))
    as (st' & E' & _ & _ & _ & Hcp).
  unfold scan in E. rewrite E in E'. injection E' as <-.
  destruct (Hcp p Hp) as (Hb & n & Hn & Hnb).
  split; [exact Hb|]. split; [|eauto].
  unfold kept_text. rewrite Hp.
  replace p with (Z.of_nat (Z.to_nat p)) at 1 by lia.
  apply slice_to_index. lia.
Qed.

Lemma checkpoint_in_text_witness :
  (0 <= 3 < Z.of_nat (String.length "[[],"))%Z
  /\ kept_text "[[],"
       (mkState [TOP_LEVEL; ARRAY_NEEDS_VALUE] 3 (Some 3%Z) (Some 2%Z)
          (Some COLLECTION_ITEM))
     = substring 0 (Z.to_nat 3) "[[],"
  /\ exists n, Some 2%Z = Some n /\ (2 <= n <= 3 + 1)%Z.
Proof.
  apply (checkpoint_in_text "[[],"
           (mkState [TOP_LEVEL; ARRAY_NEEDS_VALUE] 3 (Some 3%Z) (Some 2%Z)
              (Some COLLECTION_ITEM)) 3%Z);
    reflexivity.
Defined.

(** X6.  Text that the context on top ignores (see [ignores]) changes
    nothing but the kept text: if a checkpoint is pending after [a], the
    output for [a ++ t] is the output for [a]; if none is, [t] is kept and
    followed by the closing text that follows [a] alone. *)
Theorem ignored_text_kept (a t : string) (st : State) (ctx : ContextType) :
  scan a = Some st ->
  Py.last (context_stack st) = Some ctx ->
  is_literal ctx = false ->
  all_ignored ctx t = true ->
  match respawn_position st with
  | None =>
      exists closers,
        untruncate_json a = Some (a ++ closers)
        /\ untruncate_json (a ++ t) = Some (a ++ t ++ closers)
  | Some _ => untruncate_json (a ++ t) = untruncate_json a
  end.
Proof.
  intros Ha Hctx Hlit Hig.
  destruct (scan_ignored a t st ctx Ha Hctx Hig) as [p Hat].
  now apply (same_state_output a t st ctx p).
Qed.

Lemma ignored_text_kept_witness :
  exists closers,
    untruncate_json ("[" ++ q ++ "a" ++ q) = Some (("[" ++ q ++ "a" ++ q) ++ closers)
    /\ untruncate_json (("[" ++ q ++ "a" ++ q) ++ " x ")
       = Some (("[" ++ q ++ "a" ++ q) ++ " x " ++ closers).
Proof.
  apply (ignored_text_kept ("[" ++ q ++ "a" ++ q) " x "
           (mkState [TOP_LEVEL; ARRAY_NEEDS_COMMA] 3 None None None)
           ARRAY_NEEDS_COMMA);
    reflexivity.
Defined.

(** X7.  Inside a string, characters other than the quote and the backslash,
    and a backslash with the character after it (not u), are content: an
    escaped quote does not end the string.  The output changes as for
    ignored text. *)
Theorem string_content_kept (a t : string) (st : State) :
  scan a = Some st ->
  Py.last (context_stack st) = Some STRING ->
  string_content t = true ->
  match respawn_position st with
  | None =>
      exists closers,
        untruncate_json a = Some (a ++ closers)
        /\ untruncate_json (a ++ t) = Some (a ++ t ++ closers)
  | Some _ => untruncate_json (a ++ t) = untruncate_json a
  end.
Proof.
  intros Ha Hctx Hsc.
  destruct (scan_string_content a t st Ha Hctx Hsc) as [p Hat].
  now apply (same_state_output a t st STRING p).
Qed.

Lemma string_content_kept_witness :
  exists closers,
    untruncate_json ("[" ++ q) = Some (("[" ++ q) ++ closers)
    /\ untruncate_json (("[" ++ q) ++ "a\" ++ q ++ "]b")
       = Some (("[" ++ q) ++ ("a\" ++ q ++ "]b") ++ closers).
Proof.
  apply (string_content_kept ("[" ++ q) ("a\" ++ q ++ "]b")
           (mkState [TOP_LEVEL; ARRAY_NEEDS_COMMA; STRING] 1 None None None));
    reflexivity.
Defined.

(** X8.  A text without a character that starts a value (a digit, a quote,
    a minus, t, f, n, an opening bracket or brace) is returned as it is. *)
Theorem no_value_start_unchanged (x : string) :
  all_ignored TOP_LEVEL x = true -> untruncate_json x = Some x.
Proof.
  intros Hx.
  destruct (scan_ignored EmptyString x initial_state TOP_LEVEL) as [p E];
    trivial.
  cbn [append] in E. rewrite (output_fixed x _ E) by reflexivity.
  cbn. now rewrite string_app_empty_r.
Qed.

Lemma no_value_start_unchanged_witness :
  untruncate_json " ]x, }: " = Some " ]x, }: ".
Proof. apply no_value_start_unchanged. reflexivity. Defined.

(** X9.  A string at the top level: cut inside its content it is closed with
    a quote; complete, it is returned as it is, with any text after it that
    starts no value. *)
Theorem top_level_string (s t : string) :
  string_content s = true ->
  all_ignored TOP_LEVEL t = true ->
  untruncate_json (q ++ s) = Some (q ++ s ++ q)
  /\ untruncate_json (q ++ s ++ q ++ t) = Some (q ++ s ++ q ++ t).
Proof.
  intros Hs Ht.
  destruct (scan_string_content q s
              (mkState [TOP_LEVEL; STRING] 0 None None None)) as [p E];
    trivial.
  split.
  - rewrite (output_fixed _ _ E) by reflexivity. reflexivity.
  - destruct (scan_cons (q ++ s) DQ t _
                (mkState [TOP_LEVEL] (Z.of_nat (String.length (q ++ s)))
                   None None None)
                TOP_LEVEL E) as [p' E']; trivial.
    + step_char. reflexivity.
    + rewrite string_app_assoc in E'.
      rewrite (output_fixed (q ++ s ++ q ++ t) _ E') by reflexivity. cbn.
      now rewrite !string_app_empty_r.
Qed.

Lemma top_level_string_witness :
  untruncate_json (q ++ "a[\" ++ q ++ "b")
  = Some (q ++ "a[\" ++ q ++ "b" ++ q)
  /\ untruncate_json (q ++ "a[\" ++ q ++ "b" ++ q ++ " ]")
     = Some (q ++ "a[\" ++ q ++ "b" ++ q ++ " ]").
Proof.
  destruct (top_level_string ("a[\" ++ q ++ "b") " ]") as [H1 H2];
    try reflexivity.
  split; [exact H1 | exact H2].
Defined.

(** X10.  An escape cut short is dropped: after a text that ends inside a
    string, a backslash alone, or a backslash, u and fewer than four
    characters, gives the output of the text before the backslash. *)
Theorem incomplete_escape_dropped (a h : string) (st : State) :
  scan a = Some st ->
  Py.last (context_stack st) = Some STRING ->
  (String.length h <= 3)%nat ->
  untruncate_json (a ++ "\") = untruncate_json a
  /\ untruncate_json (a ++ "\u" ++ h) = untruncate_json a.
Proof. apply incomplete_escape. Qed.

Lemma incomplete_escape_dropped_witness :
  untruncate_json ((q ++ "ab") ++ "\") = untruncate_json (q ++ "ab")
  /\ untruncate_json ((q ++ "ab") ++ "\u" ++ "12") = untruncate_json (q ++ "ab").
Proof.
  apply (incomplete_escape_dropped (q ++ "ab") "12"
           (mkState [TOP_LEVEL; STRING] 2 None None None));
    try reflexivity.
  simpl. lia.
Defined.

(** X11.  A comma after an item of an array or a member of an object, with
    any white space after it, is dropped: the output is that of the text
    before the comma. *)
Theorem trailing_comma_rolled_back (a w : string) (st : State)
    (ctx : ContextType) :
  scan a = Some st ->
  Py.last (context_stack st) = Some ctx ->
  ctx = ARRAY_NEEDS_COMMA \/ ctx = OBJECT_NEEDS_COMMA ->
  all_whitespace w = true ->
  untruncate_json (a ++ "," ++ w) = untruncate_json a.
Proof.
  intros Ha Hctx Hc Hw.
  destruct (scan_shape a st ctx Ha Hctx) as (l & El & Hl & Hinv & Hsh).
  destruct (whitespace_ignored w Hw) as (Hw1 & Hw2 & _).
  rewrite <- string_app_assoc.
  destruct st as [cs pos rp rl rr]. cbn [context_stack] in El. subst cs.
  assert (H1 : exists st1,
            scan (a ++ ",") = Some st1
            /\ exists c', context_stack st1 = (l ++ [c'])%list
               /\ (c' = ARRAY_NEEDS_VALUE \/ c' = OBJECT_NEEDS_KEY)
               /\ fixed_closer c' = fixed_closer ctx
               /\ all_ignored c' w = true
               /\ match rp with
                  | None =>
                      respawn_position st1 = Some (Z.of_nat (String.length a))
                      /\ respawn_stack_length st1
                         = Some (Z.of_nat (length (l ++ [ctx])))
                  | Some _ =>
                      respawn_position st1 = rp /\ respawn_stack_length st1 = rl
                  end).
  { rewrite scan_snoc, Ha.
    destruct Hc as [-> | ->]; step_char; destruct rp; cbn;
      rewrite ?replace_state;
      (eexists; split; [reflexivity|]); eexists; cbn;
      (split; [reflexivity|]); auto 10. }
  destruct H1 as (st1 & E1 & c' & El1 & Hc' & Hcl & Hig & Hr).
  assert (Hl1 : Py.last (context_stack st1) = Some c')
    by (rewrite El1; apply last_snoc).
  destruct (scan_ignored (a ++ ",") w st1 c' E1 Hl1 Hig) as [p E2].
  assert (Hlit : is_literal ctx = false /\ is_literal c' = false)
    by (destruct Hc as [-> | ->], Hc' as [-> | ->]; now split).
  destruct Hlit as [Hlit Hlit'].
  rewrite string_app_assoc in E2 |- *.
  destruct rp as [p0|].
  - destruct Hr as [Hr1 Hr2].
    apply (rollback_pending a _ _ _ p0 Ha eq_refl E2); cbn; trivial.
    + now apply stack_no_literal.
    + rewrite El1. now apply stack_no_literal.
    + intros m. rewrite El1. now apply closing_firstn_top.
  - destruct Hr as [Hr1 Hr2].
    apply (rollback_fresh a _ _ (with_position p st1) l [] ctx c' Ha eq_refl);
      cbn; trivial.
    rewrite El1. now rewrite app_nil_r.
Qed.

Lemma trailing_comma_rolled_back_witness :
  untruncate_json (("{" ++ q ++ "a" ++ q ++ ":[]") ++ "," ++ "  ")
  = untruncate_json ("{" ++ q ++ "a" ++ q ++ ":[]").
Proof.
  apply (trailing_comma_rolled_back ("{" ++ q ++ "a" ++ q ++ ":[]") "  "
           (mkState [TOP_LEVEL; OBJECT_NEEDS_COMMA] 6 None None None)
           OBJECT_NEEDS_COMMA);
    try reflexivity.
  right; reflexivity.
Defined.

(** X12.  The first key of an object without its value is dropped: where an
    object waits for a key and no checkpoint is pending, a key cut inside,
    a key, or a key with its colon, gives the output of the text before the
    key. *)
Theorem dangling_first_key_dropped (a s w1 w2 : string) (st : State) :
  scan a = Some st ->
  Py.last (context_stack st) = Some OBJECT_NEEDS_KEY ->
  respawn_position st = None ->
  all_ignored STRING s = true ->
  all_whitespace w1 = true -> all_whitespace w2 = true ->
  untruncate_json (a ++ q ++ s) = untruncate_json a
  /\ untruncate_json (a ++ q ++ s ++ q ++ w1) = untruncate_json a
  /\ untruncate_json (a ++ q ++ s ++ q ++ w1 ++ ":" ++ w2) = untruncate_json a.
Proof.
  intros Ha Hctx Hp Hs Hw1 Hw2.
  destruct (scan_shape a st _ Ha Hctx) as (l & El & Hl & Hinv & Hsh).
  assert (Hn := coherent_none st Hinv Hp).
  destruct st as [cs pos rp rl rr].
  cbn [context_stack respawn_position respawn_stack_length] in *. subst cs rp rl.
  apply (key_rollback a EmptyString s w1 w2 _ l OBJECT_NEEDS_KEY pos None None rr
           Ha eq_refl Hl); auto.
  - now rewrite string_app_empty_r.
  - rewrite string_app_empty_r. cbn. auto.
Qed.

Lemma dangling_first_key_dropped_witness :
  untruncate_json ("[{" ++ q ++ "ke")
  = untruncate_json "[{"
  /\ untruncate_json ("[{" ++ q ++ "ke" ++ q ++ " ") = untruncate_json "[{"
  /\ untruncate_json ("[{" ++ q ++ "ke" ++ q ++ " " ++ ":" ++ " ")
     = untruncate_json "[{".
Proof.
  apply (dangling_first_key_dropped "[{" "ke" " " " "
           (mkState [TOP_LEVEL; ARRAY_NEEDS_COMMA; OBJECT_NEEDS_KEY] 1
              None None None));
    reflexivity.
Defined.

(** X13.  A further key without its value is dropped with the comma before
    it: where an object waits for a comma and no checkpoint is pending, a
    comma, white space and a key cut inside, a key, or a key with its colon,
    give the output of the text before the comma. *)
Theorem dangling_next_key_dropped (a w0 s w1 w2 : string) (st : State) :
  scan a = Some st ->
  Py.last (context_stack st) = Some OBJECT_NEEDS_COMMA ->
  respawn_position st = None ->
  all_whitespace w0 = true ->
  all_ignored STRING s = true ->
  all_whitespace w1 = true -> all_whitespace w2 = true ->
  untruncate_json (a ++ "," ++ w0 ++ q ++ s) = untruncate_json a
  /\ untruncate_json (a ++ "," ++ w0 ++ q ++ s ++ q ++ w1) = untruncate_json a
  /\ untruncate_json (a ++ "," ++ w0 ++ q ++ s ++ q ++ w1 ++ ":" ++ w2)
     = untruncate_json a.
Proof.
  intros Ha Hctx Hp Hw0 Hs Hw1 Hw2.
  destruct (scan_shape a st _ Ha Hctx) as (l & El & Hl & Hinv & Hsh).
  assert (Hn := coherent_none st Hinv Hp).
  destruct (whitespace_ignored w0 Hw0) as (_ & Hk0 & _).
  destruct st as [cs pos rp rl rr].
  cbn [context_stack respawn_position respawn_stack_length] in *. subst cs rp rl.
  destruct (scan_cons a "," w0 _
              (mkState (l ++ [OBJECT_NEEDS_KEY]) (Z.of_nat (String.length a))
                 (Some (Z.of_nat (String.length a)))
                 (Some (Z.of_nat (length (l ++ [OBJECT_NEEDS_COMMA]))))
                 (Some COLLECTION_ITEM))
              OBJECT_NEEDS_KEY Ha) as [p0 E0]; trivial.
  { step_char. reflexivity. }
  { apply last_snoc. }
  destruct (key_rollback a ("," ++ w0) s w1 w2 _ l OBJECT_NEEDS_COMMA _ _ _ _
              Ha eq_refl Hl (or_intror eq_refl) eq_refl E0) as (H1 & H2 & H3);
    trivial.
  { cbn. auto. }
  rewrite !string_app_assoc in H1, H2, H3. auto.
Qed.

Lemma dangling_next_key_dropped_witness :
  untruncate_json ("{" ++ q ++ "a" ++ q ++ ":[]" ++ "," ++ " " ++ q ++ "b")
  = untruncate_json ("{" ++ q ++ "a" ++ q ++ ":[]")
  /\ untruncate_json
       ("{" ++ q ++ "a" ++ q ++ ":[]" ++ "," ++ " " ++ q ++ "b" ++ q ++ " ")
     = untruncate_json ("{" ++ q ++ "a" ++ q ++ ":[]")
  /\ untruncate_json
       ("{" ++ q ++ "a" ++ q ++ ":[]" ++ "," ++ " " ++ q ++ "b" ++ q ++ " "
        ++ ":" ++ " ")
     = untruncate_json ("{" ++ q ++ "a" ++ q ++ ":[]").
Proof.
  apply (dangling_next_key_dropped ("{" ++ q ++ "a" ++ q ++ ":[]") " " "b" " " " "
           (mkState [TOP_LEVEL; OBJECT_NEEDS_COMMA] 6 None None None));
    reflexivity.
Defined.

(** X14.  The repair anticipates the closing character: where no checkpoint
    is pending and the text ends in a string, in an array or in an object
    that waits for a key or a comma, adding the quote, bracket or brace that
    closes it gives the same output. *)
Theorem closer_anticipated (a : string) (st : State) (ctx : ContextType)
    (c : ascii) :
  scan a = Some st ->
  Py.last (context_stack st) = Some ctx ->
  respawn_position st = None ->
  (ctx = STRING /\ c = DQ)
  \/ ((ctx = ARRAY_NEEDS_VALUE \/ ctx = ARRAY_NEEDS_COMMA) /\ c = "]"%char)
  \/ ((ctx = OBJECT_NEEDS_KEY \/ ctx = OBJECT_NEEDS_COMMA) /\ c = "}"%char) ->
  untruncate_json (a ++ String c EmptyString) = untruncate_json a.
Proof.
  intros Ha Hctx Hp Hc.
  destruct (scan_shape a st ctx Ha Hctx) as (l & El & Hl & Hinv & Hsh).
  assert (Hn := coherent_none st Hinv Hp).
  assert (Hlit : is_literal ctx = false
                 /\ fixed_closer ctx = [String c EmptyString]).
  { destruct Hc as [[-> ->]|[[[-> | ->] ->]|[[-> | ->] ->]]]; now split. }
  destruct Hlit as [Hlit Hcl].
  rewrite (output_fixed a st Ha) by (rewrite El; now apply stack_no_literal).
  rewrite (kept_stack_whole st Hn). unfold kept_text. rewrite Hp, El.
  destruct st as [cs pos rp rl rr].
  cbn [context_stack respawn_position respawn_stack_length] in *. subst cs rp rl.
  assert (H1 : exists p r, scan (a ++ String c EmptyString)
                           = Some (mkState l p None None r)).
  { rewrite scan_snoc, Ha.
    destruct Hc as [[-> ->]|[[[-> | ->] ->]|[[-> | ->] ->]]]; step_char; eauto. }
  destruct H1 as (p & r & E1).
  rewrite (output_fixed _ _ E1) by (now apply inner_not_literal).
  cbn. rewrite closing_text_snoc, Hcl. cbn [String.concat].
  now rewrite string_app_assoc.
Qed.

Lemma closer_anticipated_witness :
  untruncate_json ("[{" ++ String "}" EmptyString) = untruncate_json "[{".
Proof.
  apply (closer_anticipated "[{"
           (mkState [TOP_LEVEL; ARRAY_NEEDS_COMMA; OBJECT_NEEDS_KEY] 1
              None None None)
           OBJECT_NEEDS_KEY "}");
    try reflexivity.
  right; right. split; [left|]; reflexivity.
Defined.
